(** * BlackRoad Community Organizer: members, events, RSVPs

    A shallow embedding of [src/community_organizer.py].  The program is a
    thin data-access layer over a SQLite file with three tables.  The store
    is modelled as a record of three row lists kept in rowid order, together
    with the AUTOINCREMENT counters SQLite keeps in [sqlite_sequence].
    Every method of [CommunityOrganizer] opens a connection, runs its
    statements in one transaction and commits on success or rolls back on
    an exception; it is therefore a function from the store to either an
    error (store untouched) or a new store and a return value.

    Modelling scope.
    - [datetime.now().isoformat()] is an input of each operation ([now]).
    - TEXT values are [string]s; SQLite compares them with its BINARY
      collation, i.e. byte-wise lexicographically ([String.compare]).
    - INTEGER values are [Z].  An integer argument outside the signed
      64-bit range makes the driver raise [OverflowError] when it binds the
      parameter ([int64_ok]); row ids are handed out by AUTOINCREMENT.
    - Foreign keys are declared but not enforced (SQLite default).
    - [ORDER BY] is modelled by a stable insertion sort of the rows in rowid
      order; no theorem below depends on how ties are broken.
    - [main] is modelled after [parse_args]: its input is the parsed
      namespace, its output the strings passed to [print]; [json.dumps] and
      the help text of argparse are parameters. *)

From Stdlib Require Import ZArith List String Ascii Bool Lia DecimalString.
From Stdlib Require Import Sorting.Sorted Sorting.Permutation.
Import ListNotations.
Open Scope Z_scope.
Open Scope string_scope.
Local Set Warnings "-register-all".

(** ** Data model (the three dataclasses) *)

Module Member.
Record t := mk {
  id : Z;
  name : string;
  email : string;
  role : string;
  joined_at : string;
  active : Z
}.
End Member.

Module Event.
Record t := mk {
  id : Z;
  title : string;
  description : string;
  location : string;
  event_date : string;
  capacity : Z;
  organizer_id : option Z;
  created_at : string;
  status : string
}.
End Event.

Module RSVP.
Record t := mk {
  id : Z;
  event_id : Z;
  member_id : Z;
  response : string;
  rsvp_at : string;
  notes : string
}.
End RSVP.

(** ** The store *)

(** The database file: the rows of each table in rowid order and the
    per-table AUTOINCREMENT high-water marks. *)
Record DB := mkDB {
  members : list Member.t;
  events : list Event.t;
  rsvps : list RSVP.t;
  seq_members : Z;
  seq_events : Z;
  seq_rsvps : Z
}.

(** What [_init_db] leaves behind on a fresh file. *)
Definition empty_db : DB := mkDB [] [] [] 0 0 0.

(** Exceptions the methods can raise. *)
Inductive error :=
| IntegrityError (msg : string)
| ValueError (msg : string)
| OverflowError (msg : string).

Inductive result (A : Type) :=
| Ok (a : A)
| Err (e : error).
Arguments Ok {A} a.
Arguments Err {A} e.

(** The integers the driver can bind as a SQLite INTEGER: those of the
    signed 64-bit range.  Binding any other Python integer raises. *)
Definition INT64_MIN : Z := -9223372036854775808.
Definition INT64_MAX : Z := 9223372036854775807.

Definition int64_ok (z : Z) : bool := (INT64_MIN <=? z)%Z && (z <=? INT64_MAX)%Z.

Definition overflow : error :=
  OverflowError "Python int too large to convert to SQLite INTEGER".

(** Python truthiness of a [str] and of an [Optional[str]]. *)
Definition truthy (s : string) : bool := negb (s =? "").

(** AUTOINCREMENT: one more than the largest rowid ever used. *)
Definition max_rowid (ids : list Z) : Z := fold_right Z.max 0 ids.

Definition next_rowid (seq : Z) (ids : list Z) : Z :=
  Z.max seq (max_rowid ids) + 1.

(** [ORDER BY key] on a TEXT column. *)
Section OrderBy.
Context {A : Type} (key : A -> string).

Fixpoint insert_by (x : A) (l : list A) : list A :=
  match l with
  | [] => [x]
  | y :: l' =>
      if String.leb (key x) (key y) then x :: y :: l'
      else y :: insert_by x l'
  end.

Fixpoint order_by (l : list A) : list A :=
  match l with
  | [] => []
  | x :: l' => insert_by x (order_by l')
  end.
End OrderBy.

(** Rows of the attendee query and the dictionaries built from them. *)
Record Attendee := mkAttendee {
  a_name : string;
  a_email : string;
  a_response : string;
  a_rsvp_at : string
}.

(** The dictionary returned by [status]. *)
Record Stats := mkStats {
  active_members : Z;
  total_events : Z;
  confirmed_rsvps : Z;
  db_path : string
}.

(** Python values that [export_data] builds ([asdict] output). *)
Inductive value :=
| VNone
| VInt (z : Z)
| VStr (s : string)
| VList (l : list value)
| VDict (d : list (string * value)).

Definition opt_int (o : option Z) : value :=
  match o with
  | Some z => VInt z
  | None => VNone
  end.

(** [dataclasses.asdict] on each of the three dataclasses. *)
Definition asdict_member (m : Member.t) : value :=
  VDict [("id", VInt (Member.id m)); ("name", VStr (Member.name m));
         ("email", VStr (Member.email m)); ("role", VStr (Member.role m));
         ("joined_at", VStr (Member.joined_at m));
         ("active", VInt (Member.active m))].

Definition asdict_event (e : Event.t) : value :=
  VDict [("id", VInt (Event.id e)); ("title", VStr (Event.title e));
         ("description", VStr (Event.description e));
         ("location", VStr (Event.location e));
         ("event_date", VStr (Event.event_date e));
         ("capacity", VInt (Event.capacity e));
         ("organizer_id", opt_int (Event.organizer_id e));
         ("created_at", VStr (Event.created_at e));
         ("status", VStr (Event.status e))].

Definition asdict_rsvp (r : RSVP.t) : value :=
  VDict [("id", VInt (RSVP.id r)); ("event_id", VInt (RSVP.event_id r));
         ("member_id", VInt (RSVP.member_id r));
         ("response", VStr (RSVP.response r));
         ("rsvp_at", VStr (RSVP.rsvp_at r)); ("notes", VStr (RSVP.notes r))].

(** Keys of a dictionary, in insertion order, and lookup by key. *)
Definition dict_keys (v : value) : list string :=
  match v with
  | VDict d => map fst d
  | _ => []
  end.

Fixpoint assoc (k : string) (d : list (string * value)) : option value :=
  match d with
  | [] => None
  | (k', v) :: d' => if k =? k' then Some v else assoc k d'
  end.

Definition dict_get (v : value) (k : string) : option value :=
  match v with
  | VDict d => assoc k d
  | _ => None
  end.

(** ** The operations of [CommunityOrganizer] *)

Module CommunityOrganizer.

(** [SELECT id FROM members WHERE email=?] followed by [fetchone()]. *)
Definition select_member_id (db : DB) (email : string) : option Z :=
  option_map Member.id
    (find (fun m => Member.email m =? email) (members db)).

(** [add_member]: the INSERT fails on the UNIQUE(email) constraint,
    otherwise appends a row whose [active] column takes its default 1. *)
Definition add_member (db : DB) (name email role now : string)
  : result (DB * Member.t) :=
  if existsb (fun m => Member.email m =? email) (members db) then
    Err (IntegrityError "UNIQUE constraint failed: members.email")
  else
    let rowid := next_rowid (seq_members db) (map Member.id (members db)) in
    let row := Member.mk rowid name email role now 1 in
    Ok (mkDB (members db ++ [row]) (events db) (rsvps db)
             rowid (seq_events db) (seq_rsvps db),
        row).

(** [create_event]: the organizer is looked up only when the argument is
    truthy; the INSERT then binds [capacity], which must fit; the [status]
    column takes its default. *)
Definition create_event (db : DB) (title event_date location description : string)
    (capacity : Z) (organizer_email : option string) (now : string)
  : result (DB * Event.t) :=
  let organizer_id :=
    match organizer_email with
    | Some e => if truthy e then select_member_id db e else None
    | None => None
    end in
  if int64_ok capacity then
    let rowid := next_rowid (seq_events db) (map Event.id (events db)) in
    let row := Event.mk rowid title description location event_date capacity
                        organizer_id now "upcoming" in
    Ok (mkDB (members db) (events db ++ [row]) (rsvps db)
             (seq_members db) rowid (seq_rsvps db),
        row)
  else Err overflow.

(** The row that UNIQUE(event_id, member_id) makes a new row collide with. *)
Definition same_pair (event_id member_id : Z) (r : RSVP.t) : bool :=
  (RSVP.event_id r =? event_id)%Z && (RSVP.member_id r =? member_id)%Z.

(** [rsvp]: after the member lookup the INSERT OR REPLACE binds
    [event_id], which must fit; it deletes the colliding row, then inserts
    the new one under a fresh rowid. *)
Definition rsvp (db : DB) (event_id : Z) (member_email response notes now : string)
  : result (DB * RSVP.t) :=
  match select_member_id db member_email with
  | None => Err (ValueError ("Member '" ++ member_email ++ "' not found"))
  | Some m =>
      if int64_ok event_id then
        let rowid := next_rowid (seq_rsvps db) (map RSVP.id (rsvps db)) in
        let row := RSVP.mk rowid event_id m response now notes in
        Ok (mkDB (members db) (events db)
                 (filter (fun r => negb (same_pair event_id m r)) (rsvps db) ++ [row])
                 (seq_members db) (seq_events db) rowid,
            row)
      else Err overflow
  end.

(** [list_events]: a falsy [status] (None or the empty string) means no
    filter. *)
Definition list_events (db : DB) (status : option string) : list Event.t :=
  match status with
  | Some s =>
      if truthy s then
        order_by Event.event_date
          (filter (fun e => Event.status e =? s) (events db))
      else order_by Event.event_date (events db)
  | None => order_by Event.event_date (events db)
  end.

Definition list_members (db : DB) : list Member.t :=
  filter (fun m => (Member.active m =? 1)%Z) (members db).

(** The inner join of [event_attendees], before sorting: every RSVP row
    of the event paired with every member row carrying its [member_id]. *)
Definition join_attendees (db : DB) (event_id : Z) : list Attendee :=
  flat_map
    (fun r =>
       map (fun m => mkAttendee (Member.name m) (Member.email m)
                                (RSVP.response r) (RSVP.rsvp_at r))
           (filter (fun m => (Member.id m =? RSVP.member_id r)%Z) (members db)))
    (filter (fun r => (RSVP.event_id r =? event_id)%Z) (rsvps db)).

(** The rows the SELECT of [event_attendees] returns. *)
Definition attendee_rows (db : DB) (event_id : Z) : list Attendee :=
  order_by a_rsvp_at (join_attendees db event_id).

(** [event_attendees]: the SELECT binds [event_id], which must fit. *)
Definition event_attendees (db : DB) (event_id : Z) : result (list Attendee) :=
  if int64_ok event_id then Ok (attendee_rows db event_id) else Err overflow.

Definition count {A : Type} (p : A -> bool) (l : list A) : Z :=
  Z.of_nat (List.length (filter p l)).

Definition status (path : string) (db : DB) : Stats :=
  mkStats (count (fun m => (Member.active m =? 1)%Z) (members db))
          (Z.of_nat (List.length (events db)))
          (count (fun r => RSVP.response r =? "attending") (rsvps db))
          path.

Definition export_data (db : DB) (now : string) : value :=
  VDict [("members", VList (map asdict_member (members db)));
         ("events", VList (map asdict_event (events db)));
         ("rsvps", VList (map asdict_rsvp (rsvps db)));
         ("exported_at", VStr now)].

End CommunityOrganizer.

(** ** Histories of the store *)

(** A call of one of the three mutating methods, with its arguments. *)
Inductive op :=
| AddMember (name email role now : string)
| CreateEvent (title event_date location description : string) (capacity : Z)
              (organizer_email : option string) (now : string)
| Rsvp (event_id : Z) (member_email response notes now : string).

Definition commit {A : Type} (db : DB) (r : result (DB * A)) : DB :=
  match r with
  | Ok (db', _) => db'
  | Err _ => db
  end.

(** The store after a call: the new store when the call returns, the old
    one when it raises (the transaction is rolled back). *)
Definition apply_op (db : DB) (o : op) : DB :=
  match o with
  | AddMember name email role now =>
      commit db (CommunityOrganizer.add_member db name email role now)
  | CreateEvent title event_date location description capacity organizer_email now =>
      commit db (CommunityOrganizer.create_event db title event_date location
                   description capacity organizer_email now)
  | Rsvp event_id member_email response notes now =>
      commit db (CommunityOrganizer.rsvp db event_id member_email response notes now)
  end.

Definition run (ops : list op) : DB := fold_left apply_op ops empty_db.

(** Stores that a sequence of calls produces from a fresh database file. *)
Inductive reachable : DB -> Prop :=
| reachable_init : reachable empty_db
| reachable_step db o : reachable db -> reachable (apply_op db o).

(** The consistency conditions every reachable store satisfies. *)
Record consistent (db : DB) : Prop := mkConsistent {
  cons_active : Forall (fun m => Member.active m = 1) (members db);
  cons_ids : NoDup (map Member.id (members db));
  cons_emails : NoDup (map Member.email (members db));
  cons_refs : Forall (fun r => In (RSVP.member_id r) (map Member.id (members db)))
                     (rsvps db)
}.

(** Ascending order of a TEXT column. *)
Definition ascending {A : Type} (key : A -> string) (l : list A) : Prop :=
  StronglySorted (fun x y => String.leb (key x) (key y) = true) l.

(** At most one RSVP row per (event, member) pair. *)
Definition pair_unique (rs : list RSVP.t) : Prop :=
  forall e i, (List.length (filter (CommunityOrganizer.same_pair e i) rs) <= 1)%nat.

(** What it means for an attendee entry to be RSVP row [r] annotated with
    the name and email of the member row that [r] refers to. *)
Definition annotates (db : DB) (r : RSVP.t) (a : Attendee) : Prop :=
  a_response a = RSVP.response r /\
  a_rsvp_at a = RSVP.rsvp_at r /\
  exists m, In m (members db) /\ Member.id m = RSVP.member_id r /\
            a_name a = Member.name m /\ a_email a = Member.email m.

(** ** The command interface *)

(** The ANSI colour constants. *)
Definition ESC : string := String "027"%char "".
Definition GREEN : string := ESC ++ "[0;32m".
Definition RED : string := ESC ++ "[0;31m".
Definition CYAN : string := ESC ++ "[0;36m".
Definition YELLOW : string := ESC ++ "[1;33m".
Definition BLUE : string := ESC ++ "[0;34m".
Definition BOLD : string := ESC ++ "[1m".
Definition NC : string := ESC ++ "[0m".

(** The newline character of ["\n"]. *)
Definition LF : string := String "010"%char "".

(** [str] of an [int], as an f-string formats it. *)
Definition str_int (z : Z) : string := NilZero.string_of_int (Z.to_int z).

(** [d.get(k, default)] on a dictionary from strings to strings. *)
Fixpoint get_default (d : list (string * string)) (k default : string) : string :=
  match d with
  | [] => default
  | (k', v) :: d' => if k =? k' then v else get_default d' k default
  end.

Definition _status_color (status : string) : string :=
  get_default [("upcoming", CYAN); ("active", GREEN);
               ("cancelled", RED); ("completed", YELLOW)] status NC.

(** The line [_fmt_member] prints. *)
Definition _fmt_member (m : Member.t) : string :=
  "  " ++ CYAN ++ "[" ++ str_int (Member.id m) ++ "]" ++ NC ++ " "
  ++ BOLD ++ Member.name m ++ NC ++ "  " ++ Member.email m
  ++ "  role=" ++ YELLOW ++ Member.role m ++ NC.

(** The line [_fmt_event] prints. *)
Definition _fmt_event (e : Event.t) : string :=
  let sc := _status_color (Event.status e) in
  "  " ++ CYAN ++ "[" ++ str_int (Event.id e) ++ "]" ++ NC ++ " "
  ++ BOLD ++ Event.title e ++ NC ++ "  " ++ Event.event_date e
  ++ "  @ " ++ Event.location e ++ "  cap=" ++ str_int (Event.capacity e)
  ++ "  [" ++ sc ++ Event.status e ++ NC ++ "]".

(** The namespace [parse_args] returns.  The positional [target] and the
    option [--response] are restricted by [choices]; [cmd] is [None] when
    no subcommand is given. *)
Inductive target := TargetEvents | TargetMembers.

Inductive response_choice := Attending | Maybe | Declined.

Definition response_str (r : response_choice) : string :=
  match r with
  | Attending => "attending"
  | Maybe => "maybe"
  | Declined => "declined"
  end.

Inductive args :=
| ArgsNone
| ArgsStatus
| ArgsExport
| ArgsList (tgt : target) (status : option string)
| ArgsAddMember (name email role : string)
| ArgsAddEvent (title date location : string) (capacity : Z)
               (organizer : option string)
| ArgsRsvp (event_id : Z) (email : string) (response : response_choice)
| ArgsAttendees (event_id : Z).

(** [rows or print("none")]: the extra line is printed only when the list
    comprehension is empty. *)
Definition or_none (rows : list string) : list string :=
  match rows with
  | [] => ["  " ++ YELLOW ++ "none" ++ NC]
  | _ => rows
  end.

(** The line printed for one attendee. *)
Definition fmt_attendee (a : Attendee) : string :=
  let rc := if a_response a =? "attending" then GREEN else YELLOW in
  "  " ++ BOLD ++ a_name a ++ NC ++ "  " ++ a_email a
  ++ "  [" ++ rc ++ a_response a ++ NC ++ "]".

(** The lines printed for the items of the [status] dictionary. *)
Definition fmt_stat (k v : string) : string :=
  "  " ++ CYAN ++ k ++ NC ++ ": " ++ GREEN ++ v ++ NC.

Section Main.

(** [json.dumps(., indent=2)], the text of [parser.print_help()] and
    [str(DB_PATH)] come from outside the program. *)
Variable json_dumps : value -> string.
Variable help_text : string.
Variable path : string.

(** [main] after [parse_args]: the store it leaves and the strings it
    prints, one per call of [print]; an exception of the data store is not
    caught. *)
Definition main (db : DB) (a : args) (now : string) : result (DB * list string) :=
  match a with
  | ArgsList TargetEvents status =>
      let events := CommunityOrganizer.list_events db status in
      let label :=
        match status with
        | Some s => if truthy s then "status=" ++ s else "all"
        | None => "all"
        end in
      Ok (db,
          (LF ++ BOLD ++ BLUE ++ "Events ("
              ++ str_int (Z.of_nat (List.length events)) ++ ") — " ++ label ++ NC)
          :: or_none (map _fmt_event events))
  | ArgsList TargetMembers _ =>
      let members := CommunityOrganizer.list_members db in
      Ok (db,
          (LF ++ BOLD ++ BLUE ++ "Members ("
              ++ str_int (Z.of_nat (List.length members)) ++ ")" ++ NC)
          :: or_none (map _fmt_member members))
  | ArgsAddMember name email role =>
      match CommunityOrganizer.add_member db name email role now with
      | Err e => Err e
      | Ok (db', m) =>
          Ok (db',
              [GREEN ++ "✓" ++ NC ++ " Member " ++ BOLD ++ Member.name m ++ NC
                     ++ " registered (id=" ++ str_int (Member.id m) ++ ")"])
      end
  | ArgsAddEvent title date location capacity organizer =>
      match CommunityOrganizer.create_event db title date location "" capacity
              organizer now with
      | Err e => Err e
      | Ok (db', e) =>
          Ok (db',
              [GREEN ++ "✓" ++ NC ++ " Event " ++ BOLD ++ Event.title e ++ NC
                     ++ " created (id=" ++ str_int (Event.id e) ++ ")"])
      end
  | ArgsRsvp event_id email response =>
      match CommunityOrganizer.rsvp db event_id email (response_str response) ""
              now with
      | Err e => Err e
      | Ok (db', r) =>
          Ok (db',
              [GREEN ++ "✓" ++ NC ++ " RSVP recorded (id=" ++ str_int (RSVP.id r)
                     ++ ") response=" ++ RSVP.response r])
      end
  | ArgsAttendees event_id =>
      match CommunityOrganizer.event_attendees db event_id with
      | Err e => Err e
      | Ok attendees =>
          Ok (db,
              (LF ++ BOLD ++ BLUE ++ "Attendees for event " ++ str_int event_id
                  ++ " (" ++ str_int (Z.of_nat (List.length attendees)) ++ ")" ++ NC)
              :: map fmt_attendee attendees)
      end
  | ArgsStatus =>
      let st := CommunityOrganizer.status path db in
      Ok (db,
          [LF ++ BOLD ++ BLUE ++ "Community Organizer Status" ++ NC;
           fmt_stat "active_members" (str_int (active_members st));
           fmt_stat "total_events" (str_int (total_events st));
           fmt_stat "confirmed_rsvps" (str_int (confirmed_rsvps st));
           fmt_stat "db_path" (db_path st)])
  | ArgsExport =>
      Ok (db, [json_dumps (CommunityOrganizer.export_data db now)])
  | ArgsNone => Ok (db, [help_text])
  end.

(** The store after a sequence of invocations of the program, each with
    its arguments and its clock reading. *)
Definition cli_step (db : DB) (inv : args * string) : DB :=
  commit db (main db (fst inv) (snd inv)).

Definition cli_run (invs : list (args * string)) : DB :=
  fold_left cli_step invs empty_db.

End Main.

(** The row ids 1, 2, ..., n. *)
Definition ids_upto (n : nat) : list Z := map Z.of_nat (seq 1 n).

(** What the command line can put into the tables: events without a
    description, RSVPs without notes and with one of the three choices. *)
Definition cli_rows (db : DB) : Prop :=
  Forall (fun e => Event.description e = "") (events db) /\
  Forall (fun r => RSVP.notes r = "" /\
                   (RSVP.response r = "attending" \/ RSVP.response r = "maybe" \/
                    RSVP.response r = "declined"))
         (rsvps db).

(** * Properties *)

(** ** Integers the driver can bind *)

Lemma int64_ok_true z : int64_ok z = true <-> INT64_MIN <= z <= INT64_MAX.
Proof. unfold int64_ok. rewrite andb_true_iff, !Z.leb_le. tauto. Qed.

Lemma int64_ok_false z : int64_ok z = false <-> z < INT64_MIN \/ INT64_MAX < z.
Proof.
  unfold int64_ok. rewrite andb_false_iff, !Z.leb_gt. tauto.
Qed.

(** ** Byte-wise lexicographic order on TEXT *)

Section StringOrder.

Lemma ascii_compare_lt_trans a b c :
  Ascii.compare a b = Lt -> Ascii.compare b c = Lt -> Ascii.compare a c = Lt.
Proof.
  unfold Ascii.compare. rewrite !N.compare_lt_iff. lia.
Qed.

Lemma ascii_compare_refl a : Ascii.compare a a = Eq.
Proof. unfold Ascii.compare. apply N.compare_refl. Qed.

Lemma string_compare_lt_trans s1 :
  forall s2 s3,
    String.compare s1 s2 = Lt -> String.compare s2 s3 = Lt ->
    String.compare s1 s3 = Lt.
Proof.
  induction s1 as [|a s1 IH]; intros [|b s2] [|c s3]; simpl;
    try discriminate; try reflexivity.
  destruct (Ascii.compare a b) eqn:Hab; try discriminate;
    destruct (Ascii.compare b c) eqn:Hbc; try discriminate; intros H1 H2.
  - apply Ascii.compare_eq_iff in Hab, Hbc. subst.
    rewrite ascii_compare_refl. eauto.
  - apply Ascii.compare_eq_iff in Hab. subst. now rewrite Hbc.
  - apply Ascii.compare_eq_iff in Hbc. subst. now rewrite Hab.
  - now rewrite (ascii_compare_lt_trans _ _ _ Hab Hbc).
Qed.

Lemma string_leb_trans s1 s2 s3 :
  String.leb s1 s2 = true -> String.leb s2 s3 = true -> String.leb s1 s3 = true.
Proof.
  unfold String.leb.
  destruct (String.compare s1 s2) eqn:H12; try discriminate;
    destruct (String.compare s2 s3) eqn:H23; try discriminate; intros _ _.
  - apply String.compare_eq_iff in H12. subst. now rewrite H23.
  - apply String.compare_eq_iff in H12. subst. now rewrite H23.
  - apply String.compare_eq_iff in H23. subst. now rewrite H12.
  - now rewrite (string_compare_lt_trans _ _ _ H12 H23).
Qed.

End StringOrder.

(** ** [ORDER BY] returns the same rows, in ascending order of the key *)

Section OrderByFacts.
Context {A : Type} (key : A -> string).

Lemma insert_by_perm x l : Permutation (insert_by key x l) (x :: l).
Proof.
  induction l as [|y l IH]; simpl; [reflexivity|].
  destruct (String.leb (key x) (key y)); [reflexivity|].
  rewrite IH. apply perm_swap.
Qed.

Lemma order_by_perm l : Permutation (order_by key l) l.
Proof.
  induction l as [|x l IH]; simpl; [reflexivity|].
  rewrite insert_by_perm. now constructor.
Qed.

Lemma insert_by_ascending x l :
  ascending key l -> ascending key (insert_by key x l).
Proof.
  unfold ascending. induction l as [|y l IH]; simpl; intros Hs.
  - repeat constructor.
  - apply StronglySorted_inv in Hs. destruct Hs as [Hs Hy].
    destruct (String.leb (key x) (key y)) eqn:Hxy.
    + constructor; [now constructor|].
      constructor; [exact Hxy|].
      rewrite Forall_forall in *. intros z Hz.
      eapply string_leb_trans; eauto.
    + constructor; [now apply IH|].
      rewrite Forall_forall in *. intros z Hz.
      apply (Permutation_in _ (insert_by_perm x l)) in Hz.
      destruct Hz as [<-|Hz]; [|now apply Hy].
      destruct (String.leb_total (key x) (key y)) as [H|H]; congruence.
Qed.

Lemma order_by_ascending l : ascending key (order_by key l).
Proof.
  induction l as [|x l IH]; simpl.
  - constructor.
  - now apply insert_by_ascending.
Qed.

Lemma order_by_length l : List.length (order_by key l) = List.length l.
Proof. apply Permutation_length, order_by_perm. Qed.

End OrderByFacts.

(** ** Row identifiers and lookups *)

Section Lookups.

Lemma max_rowid_ge ids x : In x ids -> x <= max_rowid ids.
Proof.
  induction ids as [|y ids IH]; simpl; [tauto|].
  intros [->|H]; [lia|]. specialize (IH H). lia.
Qed.

Lemma next_rowid_fresh seq ids : ~ In (next_rowid seq ids) ids.
Proof.
  intros H. apply max_rowid_ge in H. unfold next_rowid in H. lia.
Qed.

Lemma NoDup_snoc {A : Type} (l : list A) x :
  NoDup l -> ~ In x l -> NoDup (l ++ [x]).
Proof.
  intros Hl Hx. apply NoDup_app; [exact Hl|repeat constructor; tauto|].
  intros y Hy [<-|[]]. tauto.
Qed.

Lemma NoDup_map_inj {A B : Type} (f : A -> B) l a b :
  NoDup (map f l) -> In a l -> In b l -> f a = f b -> a = b.
Proof.
  induction l as [|x l IH]; simpl; [tauto|].
  intros Hnd Ha Hb Hab. inversion Hnd as [|? ? Hx Hl]; subst.
  destruct Ha as [<-|Ha], Hb as [<-|Hb]; auto.
  - exfalso. apply Hx. rewrite Hab. now apply in_map.
  - exfalso. apply Hx. rewrite <- Hab. now apply in_map.
Qed.

Lemma existsb_email_false ms e :
  existsb (fun m => Member.email m =? e) ms = false ->
  ~ In e (map Member.email ms).
Proof.
  intros H Hin. apply in_map_iff in Hin. destruct Hin as (m & <- & Hm).
  assert (Ht : existsb (fun m0 => Member.email m0 =? Member.email m) ms = true).
  { apply existsb_exists. exists m. split; [exact Hm|apply String.eqb_refl]. }
  congruence.
Qed.

Lemma select_member_id_in db e i :
  CommunityOrganizer.select_member_id db e = Some i ->
  exists m, In m (members db) /\ Member.email m = e /\ Member.id m = i.
Proof.
  unfold CommunityOrganizer.select_member_id.
  destruct (find _ _) as [m|] eqn:Hf; simpl; [|discriminate].
  intros [= <-]. apply find_some in Hf. destruct Hf as [Hin He].
  apply String.eqb_eq in He. eauto.
Qed.

Lemma select_member_id_none db e :
  (forall m, In m (members db) -> Member.email m <> e) ->
  CommunityOrganizer.select_member_id db e = None.
Proof.
  intros H. destruct (CommunityOrganizer.select_member_id db e) eqn:Hs; auto.
  apply select_member_id_in in Hs. destruct Hs as (m & Hin & He & _).
  now apply H in Hin.
Qed.

Lemma select_member_id_unique db m :
  NoDup (map Member.email (members db)) -> In m (members db) ->
  CommunityOrganizer.select_member_id db (Member.email m) = Some (Member.id m).
Proof.
  intros Hnd Hin.
  destruct (CommunityOrganizer.select_member_id db (Member.email m)) as [i|] eqn:Hs.
  - apply select_member_id_in in Hs. destruct Hs as (m' & Hin' & He & <-).
    now rewrite (NoDup_map_inj Member.email _ m' m Hnd Hin' Hin He).
  - unfold CommunityOrganizer.select_member_id in Hs.
    destruct (find _ _) eqn:Hf; [discriminate|].
    apply (find_none _ _ Hf) in Hin. now rewrite String.eqb_refl in Hin.
Qed.

End Lookups.

(** ** Every reachable store is consistent *)

Section Invariants.

Lemma empty_consistent : consistent empty_db.
Proof. constructor; simpl; constructor. Qed.

Lemma add_member_consistent db name email role now db' m :
  consistent db ->
  CommunityOrganizer.add_member db name email role now = Ok (db', m) ->
  consistent db'.
Proof.
  intros [Ha Hi He Hr]. unfold CommunityOrganizer.add_member.
  destruct (existsb _ _) eqn:Hex; [discriminate|].
  intros [= <- <-]. constructor; simpl.
  - apply Forall_app; split; [exact Ha|]. now repeat constructor.
  - rewrite map_app. apply NoDup_snoc; [exact Hi|]. apply next_rowid_fresh.
  - rewrite map_app. apply NoDup_snoc; [exact He|].
    now apply existsb_email_false.
  - eapply Forall_impl; [|exact Hr]. simpl. intros r Hin.
    rewrite map_app. apply in_or_app. now left.
Qed.

Lemma create_event_consistent db t d l de c o now db' e :
  consistent db ->
  CommunityOrganizer.create_event db t d l de c o now = Ok (db', e) ->
  consistent db'.
Proof.
  intros [Ha Hi He Hr]. unfold CommunityOrganizer.create_event.
  destruct (int64_ok c); [|discriminate].
  intros [= <- <-]. now constructor.
Qed.

Lemma rsvp_consistent db ev em resp notes now db' r :
  consistent db ->
  CommunityOrganizer.rsvp db ev em resp notes now = Ok (db', r) ->
  consistent db'.
Proof.
  intros [Ha Hi He Hr]. unfold CommunityOrganizer.rsvp.
  destruct (CommunityOrganizer.select_member_id db em) as [i|] eqn:Hs;
    [|discriminate].
  destruct (int64_ok ev); [|discriminate].
  intros [= <- <-]. constructor; simpl; auto.
  apply Forall_app; split.
  - rewrite Forall_forall in *. intros x Hx. apply filter_In in Hx.
    now apply Hr.
  - repeat constructor. simpl.
    apply select_member_id_in in Hs. destruct Hs as (m & Hin & _ & <-).
    now apply in_map.
Qed.

Lemma apply_op_consistent db o : consistent db -> consistent (apply_op db o).
Proof.
  intros H. destruct o; unfold apply_op.
  - destruct (CommunityOrganizer.add_member _ _ _ _ _) as [[db' m]|] eqn:E;
      unfold commit; eauto using add_member_consistent.
  - destruct (CommunityOrganizer.create_event _ _ _ _ _ _ _ _) as [[db' m]|] eqn:E;
      unfold commit; eauto using create_event_consistent.
  - destruct (CommunityOrganizer.rsvp _ _ _ _ _ _) as [[db' m]|] eqn:E;
      unfold commit; eauto using rsvp_consistent.
Qed.

Lemma reachable_consistent db : reachable db -> consistent db.
Proof.
  induction 1; [apply empty_consistent|now apply apply_op_consistent].
Qed.

Lemma reachable_run ops : reachable (run ops).
Proof.
  unfold run. generalize empty_db reachable_init.
  induction ops as [|o ops IH]; simpl; intros db H; [exact H|].
  apply IH. now constructor.
Qed.

End Invariants.

(** ** RSVP rows per (event, member) pair *)

Section RsvpPairs.
Import CommunityOrganizer.

Lemma filter_excluded {A : Type} (p : A -> bool) l :
  filter p (filter (fun x => negb (p x)) l) = [].
Proof.
  induction l as [|x l IH]; simpl; [reflexivity|].
  destruct (p x) eqn:Hp; simpl; [exact IH|]. now rewrite Hp.
Qed.

Lemma filter_filter_length {A : Type} (p q : A -> bool) l :
  (List.length (filter p (filter q l)) <= List.length (filter p l))%nat.
Proof.
  induction l as [|x l IH]; simpl; [lia|].
  destruct (q x); simpl; destruct (p x); simpl; lia.
Qed.

Lemma same_pair_true e i r :
  same_pair e i r = true <-> RSVP.event_id r = e /\ RSVP.member_id r = i.
Proof.
  unfold same_pair. rewrite andb_true_iff, !Z.eqb_eq. tauto.
Qed.

(** The effect of a successful [rsvp] on the table. *)
Lemma rsvp_ok db e em resp notes now i :
  select_member_id db em = Some i ->
  int64_ok e = true ->
  let row := RSVP.mk (next_rowid (seq_rsvps db) (map RSVP.id (rsvps db)))
                     e i resp now notes in
  exists db',
    rsvp db e em resp notes now = Ok (db', row) /\
    members db' = members db /\ events db' = events db /\
    rsvps db' = (filter (fun r => negb (same_pair e i r)) (rsvps db) ++ [row])%list.
Proof.
  intros Hs He row. unfold rsvp. rewrite Hs, He. eexists. repeat split.
Qed.

Lemma rsvp_pair_rows db e em resp notes now db' row :
  rsvp db e em resp notes now = Ok (db', row) ->
  RSVP.event_id row = e /\
  select_member_id db em = Some (RSVP.member_id row) /\
  filter (same_pair e (RSVP.member_id row)) (rsvps db') = [row].
Proof.
  unfold rsvp. destruct (select_member_id db em) as [i|]; [|discriminate].
  destruct (int64_ok e); [|discriminate].
  intros [= <- <-]. simpl. repeat split.
  rewrite filter_app, filter_excluded. simpl.
  unfold same_pair. simpl. now rewrite !Z.eqb_refl.
Qed.

Lemma pair_unique_replace rs e i row :
  pair_unique rs ->
  RSVP.event_id row = e -> RSVP.member_id row = i ->
  pair_unique (filter (fun r => negb (same_pair e i r)) rs ++ [row])%list.
Proof.
  intros Hu He Hi e' i'. rewrite filter_app, length_app.
  cbn [filter].
  destruct (same_pair e' i' row) eqn:Hp; cbn [List.length].
  - apply same_pair_true in Hp. destruct Hp as [He' Hi'].
    assert (e' = e) as -> by congruence. assert (i' = i) as -> by congruence.
    rewrite filter_excluded. simpl. lia.
  - specialize (Hu e' i').
    pose proof (filter_filter_length (same_pair e' i')
                  (fun r => negb (same_pair e i r)) rs). lia.
Qed.

Lemma apply_op_pair_unique db o :
  pair_unique (rsvps db) -> pair_unique (rsvps (apply_op db o)).
Proof.
  intros Hu. destruct o; unfold apply_op.
  - unfold add_member. destruct (existsb _ _); simpl; exact Hu.
  - unfold create_event. destruct (int64_ok capacity); simpl; exact Hu.
  - unfold rsvp. destruct (select_member_id db member_email); simpl; [|exact Hu].
    destruct (int64_ok event_id); simpl; [|exact Hu].
    now apply pair_unique_replace.
Qed.

Lemma reachable_pair_unique db : reachable db -> pair_unique (rsvps db).
Proof.
  induction 1 as [|db o _ IH].
  - intros e i. simpl. lia.
  - now apply apply_op_pair_unique.
Qed.

End RsvpPairs.

(** C1. Recording two RSVPs for the same event (an id the store can hold,
    i.e. a signed 64-bit integer) and the same existing member leaves
    exactly one row for that (event, member) pair, and that row carries the
    response, the notes and the timestamp of the second call; in every
    reachable store there is at most one row per pair. *)
Theorem C1_rsvp_replaces_per_pair :
  forall db E M m resp1 notes1 now1 resp2 notes2 now2,
    reachable db ->
    INT64_MIN <= E <= INT64_MAX ->
    In m (members db) -> Member.email m = M ->
    (exists db1 r1 db2 r2,
        CommunityOrganizer.rsvp db E M resp1 notes1 now1 = Ok (db1, r1) /\
        CommunityOrganizer.rsvp db1 E M resp2 notes2 now2 = Ok (db2, r2) /\
        filter (CommunityOrganizer.same_pair E (Member.id m)) (rsvps db2) = [r2] /\
        RSVP.response r2 = resp2 /\ RSVP.notes r2 = notes2 /\
        RSVP.rsvp_at r2 = now2) /\
    (forall e i,
        (List.length (filter (CommunityOrganizer.same_pair e i) (rsvps db)) <= 1)%nat).
Proof.
  intros db E M m resp1 notes1 now1 resp2 notes2 now2 Hr HE Hin <-.
  split; [|now apply reachable_pair_unique].
  apply int64_ok_true in HE.
  pose proof (reachable_consistent _ Hr) as Hc.
  pose proof (select_member_id_unique db m (cons_emails _ Hc) Hin) as Hs.
  destruct (rsvp_ok db E (Member.email m) resp1 notes1 now1 _ Hs HE)
    as (db1 & H1 & Hm1 & _ & _).
  assert (Hs1 : CommunityOrganizer.select_member_id db1 (Member.email m)
                = Some (Member.id m)).
  { unfold CommunityOrganizer.select_member_id in *. now rewrite Hm1. }
  destruct (rsvp_ok db1 E (Member.email m) resp2 notes2 now2 _ Hs1 HE)
    as (db2 & H2 & _ & _ & _).
  do 4 eexists. split; [exact H1|]. split; [exact H2|].
  apply rsvp_pair_rows in H2. simpl in H2. destruct H2 as (_ & _ & H2).
  repeat split. exact H2.
Qed.

(** A run of C1: one member, two RSVPs for event 7. *)
Lemma C1_rsvp_replaces_per_pair_witness :
  let db := run [AddMember "A" "a@x.com" "member" "2025-01-01T09:00:00"] in
  let m := Member.mk 1 "A" "a@x.com" "member" "2025-01-01T09:00:00" 1 in
  (exists db1 r1 db2 r2,
      CommunityOrganizer.rsvp db 7 "a@x.com" "maybe" "" "2025-01-02T09:00:00"
        = Ok (db1, r1) /\
      CommunityOrganizer.rsvp db1 7 "a@x.com" "attending" "yes" "2025-01-03T09:00:00"
        = Ok (db2, r2) /\
      filter (CommunityOrganizer.same_pair 7 1) (rsvps db2) = [r2] /\
      RSVP.response r2 = "attending" /\ RSVP.notes r2 = "yes" /\
      RSVP.rsvp_at r2 = "2025-01-03T09:00:00") /\
  (forall e i,
      (List.length (filter (CommunityOrganizer.same_pair e i) (rsvps db)) <= 1)%nat).
Proof.
  intros db m.
  apply (C1_rsvp_replaces_per_pair db 7 "a@x.com" m
           "maybe" "" "2025-01-02T09:00:00" "attending" "yes" "2025-01-03T09:00:00").
  - apply reachable_run.
  - unfold INT64_MIN, INT64_MAX. lia.
  - simpl. left. reflexivity.
  - reflexivity.
Defined.

(** C2. An RSVP for an email that no member row carries raises the
    not-found error, whose message quotes that email, and leaves the RSVP
    table (indeed the whole store) as it was: no row is created. *)
Theorem C2_rsvp_unknown_member :
  forall db E M resp notes now,
    (forall m, In m (members db) -> Member.email m <> M) ->
    CommunityOrganizer.rsvp db E M resp notes now
      = Err (ValueError ("Member '" ++ M ++ "' not found")) /\
    rsvps (apply_op db (Rsvp E M resp notes now)) = rsvps db /\
    apply_op db (Rsvp E M resp notes now) = db.
Proof.
  intros db E M resp notes now H.
  apply select_member_id_none in H.
  unfold apply_op, CommunityOrganizer.rsvp. rewrite H. simpl. auto.
Qed.

(** A run of C2: "b@x.com" was never registered. *)
Lemma C2_rsvp_unknown_member_witness :
  let db := run [AddMember "A" "a@x.com" "member" "2025-01-01T09:00:00"] in
  CommunityOrganizer.rsvp db 1 "b@x.com" "attending" "" "2025-01-02T09:00:00"
    = Err (ValueError "Member 'b@x.com' not found") /\
  rsvps (apply_op db (Rsvp 1 "b@x.com" "attending" "" "2025-01-02T09:00:00"))
    = rsvps db /\
  apply_op db (Rsvp 1 "b@x.com" "attending" "" "2025-01-02T09:00:00") = db.
Proof.
  intros db.
  apply (C2_rsvp_unknown_member db 1 "b@x.com" "attending" "" "2025-01-02T09:00:00").
  simpl. intros m [<-|[]]. simpl. discriminate.
Defined.

(** C3. When a member row with email E exists, registering a member with
    email E again raises the integrity error of the UNIQUE constraint; the
    store is unchanged, so the first record is still there, is still found
    by its email and, being active, is still listed. *)
Theorem C3_duplicate_email_rejected :
  forall db m name role now,
    In m (members db) ->
    let db' := apply_op db (AddMember name (Member.email m) role now) in
    (exists msg,
        CommunityOrganizer.add_member db name (Member.email m) role now
          = Err (IntegrityError msg)) /\
    db' = db /\
    In m (members db') /\
    CommunityOrganizer.select_member_id db' (Member.email m) <> None /\
    (Member.active m = 1 -> In m (CommunityOrganizer.list_members db')).
Proof.
  intros db m name role now Hin db'.
  assert (Hex : existsb (fun m0 => Member.email m0 =? Member.email m) (members db)
                = true).
  { apply existsb_exists. exists m. split; [exact Hin|apply String.eqb_refl]. }
  assert (Hdb : db' = db).
  { unfold db', apply_op, CommunityOrganizer.add_member. now rewrite Hex. }
  split.
  { unfold CommunityOrganizer.add_member. rewrite Hex. eauto. }
  rewrite Hdb. repeat split; auto.
  - unfold CommunityOrganizer.select_member_id.
    destruct (find _ _) eqn:Hf; [discriminate|].
    apply (find_none _ _ Hf) in Hin. now rewrite String.eqb_refl in Hin.
  - intros Ha. unfold CommunityOrganizer.list_members.
    apply filter_In. split; [exact Hin|]. now apply Z.eqb_eq.
Qed.

(** A run of C3: "a@x.com" is registered twice. *)
Lemma C3_duplicate_email_rejected_witness :
  let db := run [AddMember "A" "a@x.com" "member" "2025-01-01T09:00:00"] in
  let m := Member.mk 1 "A" "a@x.com" "member" "2025-01-01T09:00:00" 1 in
  let db' := apply_op db (AddMember "B" "a@x.com" "admin" "2025-01-02T09:00:00") in
  (exists msg,
      CommunityOrganizer.add_member db "B" "a@x.com" "admin" "2025-01-02T09:00:00"
        = Err (IntegrityError msg)) /\
  db' = db /\
  In m (members db') /\
  CommunityOrganizer.select_member_id db' "a@x.com" <> None /\
  (Member.active m = 1 -> In m (CommunityOrganizer.list_members db')).
Proof.
  intros db m.
  apply (C3_duplicate_email_rejected db m "B" "admin" "2025-01-02T09:00:00").
  simpl. left. reflexivity.
Defined.

(** ** Counting rows *)

Section Counting.
Context {A : Type} (p : A -> bool).

Lemma filter_length_perm l l' :
  Permutation l l' -> List.length (filter p l) = List.length (filter p l').
Proof.
  induction 1 as [|x l l' _ IH|x y l|l l' l'' _ IH1 _ IH2]; simpl.
  - reflexivity.
  - destruct (p x); simpl; now rewrite IH.
  - destruct (p x), (p y); reflexivity.
  - now rewrite IH1.
Qed.

Lemma filter_all l : Forall (fun x => p x = true) l -> filter p l = l.
Proof.
  induction 1 as [|x l Hx _ IH]; simpl; [reflexivity|].
  now rewrite Hx, IH.
Qed.

Lemma filter_none l : Forall (fun x => p x = false) l -> filter p l = [].
Proof.
  induction 1 as [|x l Hx _ IH]; simpl; [reflexivity|].
  now rewrite Hx.
Qed.

(** Counting the rows that satisfy [p] in a table made of [yes] rows,
    which do, and [no] rows, which do not. *)
Lemma count_split l yes no :
  Permutation l (yes ++ no) ->
  Forall (fun x => p x = true) yes -> Forall (fun x => p x = false) no ->
  CommunityOrganizer.count p l = Z.of_nat (List.length yes).
Proof.
  intros Hp Hy Hn. unfold CommunityOrganizer.count.
  rewrite (filter_length_perm _ _ Hp), filter_app.
  rewrite (filter_all _ Hy), (filter_none _ Hn), app_nil_r. reflexivity.
Qed.
End Counting.

(** C4. In a store whose member table consists of N rows with [active = 1]
    and any number of other rows, whose event table has M rows of whatever
    status, and whose RSVP table consists of K rows with response exactly
    "attending" and any number of rows with another response, [status]
    reports N active members, M events and K confirmed RSVPs. *)
Theorem C4_status_counts :
  forall path db act inact att other,
    Permutation (members db) (act ++ inact) ->
    Forall (fun m => Member.active m = 1) act ->
    Forall (fun m => Member.active m <> 1) inact ->
    Permutation (rsvps db) (att ++ other) ->
    Forall (fun r => RSVP.response r = "attending") att ->
    Forall (fun r => RSVP.response r <> "attending") other ->
    active_members (CommunityOrganizer.status path db) = Z.of_nat (List.length act) /\
    total_events (CommunityOrganizer.status path db)
      = Z.of_nat (List.length (events db)) /\
    confirmed_rsvps (CommunityOrganizer.status path db) = Z.of_nat (List.length att).
Proof.
  intros path db act inact att other Hm Ha Hi Hr Hat Ho. simpl.
  repeat split.
  - apply (count_split _ _ _ _ Hm).
    + eapply Forall_impl; [|exact Ha]. intros m. apply Z.eqb_eq.
    + eapply Forall_impl; [|exact Hi]. intros m. apply Z.eqb_neq.
  - apply (count_split _ _ _ _ Hr).
    + eapply Forall_impl; [|exact Hat]. intros r. apply String.eqb_eq.
    + eapply Forall_impl; [|exact Ho]. intros r. apply String.eqb_neq.
Qed.

(** An instance of C4: two active members and an inactive one, two events
    of different status, two "attending" rows among four. *)
Lemma C4_status_counts_witness :
  let m1 := Member.mk 1 "A" "a@x.com" "member" "2025-01-01T09:00:00" 1 in
  let m2 := Member.mk 2 "B" "b@x.com" "member" "2025-01-01T10:00:00" 0 in
  let m3 := Member.mk 3 "C" "c@x.com" "admin" "2025-01-01T11:00:00" 1 in
  let e1 := Event.mk 1 "Meetup" "" "TBD" "2025-06-01" 50 (Some 1)
                     "2025-01-02T09:00:00" "upcoming" in
  let e2 := Event.mk 2 "Picnic" "" "Park" "2025-07-01" 20 None
                     "2025-01-02T10:00:00" "cancelled" in
  let r1 := RSVP.mk 1 1 1 "attending" "2025-01-03T09:00:00" "" in
  let r2 := RSVP.mk 2 1 2 "maybe" "2025-01-03T10:00:00" "" in
  let r3 := RSVP.mk 3 2 3 "attending" "2025-01-03T11:00:00" "" in
  let r4 := RSVP.mk 4 1 3 "declined" "2025-01-03T12:00:00" "" in
  let db := mkDB [m1; m2; m3] [e1; e2] [r1; r2; r3; r4] 3 2 4 in
  let st := CommunityOrganizer.status "community-organizer.db" db in
  active_members st = 2 /\ total_events st = 2 /\ confirmed_rsvps st = 2.
Proof.
  intros m1 m2 m3 e1 e2 r1 r2 r3 r4 db st.
  apply (C4_status_counts "community-organizer.db" db [m1; m3] [m2] [r1; r3] [r2; r4]).
  - simpl. apply perm_skip, perm_swap.
  - repeat constructor.
  - repeat constructor. simpl. lia.
  - simpl. apply perm_skip, perm_swap.
  - repeat constructor.
  - repeat constructor; simpl; discriminate.
Defined.

(** ** Listing events *)

(** SQLite orders TEXT byte by byte, so "2025-10-01" comes before
    "2025-9-01": the order is not aware of dates. *)
Example list_events_order_is_textual :
  map Event.event_date
      (CommunityOrganizer.list_events
         (run [CreateEvent "September" "2025-9-01" "TBD" "" 50 None "t1";
               CreateEvent "October" "2025-10-01" "TBD" "" 50 None "t2"])
         None)
  = ["2025-10-01"; "2025-9-01"].
Proof. reflexivity. Qed.

(** C5 fails as stated: with the empty string as the status filter,
    [list_events] does not return the events whose status is the empty
    string (there are none here) but every event. *)
Lemma C5_list_events_empty_filter_counterexample :
  let db := run [CreateEvent "Meetup" "2025-06-01" "TBD" "" 50 None
                             "2025-01-02T09:00:00"] in
  ~ (forall e, In e (CommunityOrganizer.list_events db (Some "")) <->
               In e (events db) /\ Event.status e = "").
Proof.
  intros db H.
  destruct (H (Event.mk 1 "Meetup" "" "TBD" "2025-06-01" 50 None
                        "2025-01-02T09:00:00" "upcoming")) as [H1 _].
  destruct H1 as [_ H1]; [simpl; left; reflexivity|].
  discriminate H1.
Qed.

(** C5, amended.  Without a filter [list_events] returns all stored events
    in ascending byte-wise lexicographic order of the event date; with a
    non-empty status filter it returns exactly the events whose status
    equals the filter, in the same order; the empty string as a filter
    behaves as no filter. *)
Theorem C5_list_events_sorted_filtered :
  forall db s,
    s <> "" ->
    (Permutation (CommunityOrganizer.list_events db None) (events db) /\
     ascending Event.event_date (CommunityOrganizer.list_events db None)) /\
    (Permutation (CommunityOrganizer.list_events db (Some s))
                 (filter (fun e => Event.status e =? s) (events db)) /\
     (forall e, In e (CommunityOrganizer.list_events db (Some s)) <->
                In e (events db) /\ Event.status e = s) /\
     ascending Event.event_date (CommunityOrganizer.list_events db (Some s))) /\
    CommunityOrganizer.list_events db (Some "") = CommunityOrganizer.list_events db None.
Proof.
  intros db s Hs.
  assert (Ht : truthy s = true).
  { unfold truthy. apply negb_true_iff. now apply String.eqb_neq. }
  unfold CommunityOrganizer.list_events. rewrite Ht. simpl.
  split; [split; [apply order_by_perm|apply order_by_ascending]|].
  split; [|reflexivity].
  split; [apply order_by_perm|]. split; [|apply order_by_ascending].
  intros e. split.
  - intros Hin. apply (Permutation_in _ (order_by_perm _ _)) in Hin.
    apply filter_In in Hin. destruct Hin as [Hin He].
    split; [exact Hin|]. now apply String.eqb_eq.
  - intros [Hin He].
    apply (Permutation_in _ (Permutation_sym (order_by_perm _ _))).
    apply filter_In. split; [exact Hin|]. now apply String.eqb_eq.
Qed.

(** An instance of C5: three events, one of them cancelled by hand. *)
Lemma C5_list_events_sorted_filtered_witness :
  let e1 := Event.mk 1 "Picnic" "" "Park" "2025-07-01" 20 None "t1" "upcoming" in
  let e2 := Event.mk 2 "Meetup" "" "TBD" "2025-06-01" 50 None "t2" "cancelled" in
  let e3 := Event.mk 3 "Hack" "" "TBD" "2025-05-01" 50 None "t3" "upcoming" in
  let db := mkDB [] [e1; e2; e3] [] 0 3 0 in
  CommunityOrganizer.list_events db None = [e3; e2; e1] /\
  CommunityOrganizer.list_events db (Some "upcoming") = [e3; e1] /\
  ascending Event.event_date (CommunityOrganizer.list_events db (Some "upcoming")) /\
  CommunityOrganizer.list_events db (Some "") = [e3; e2; e1].
Proof.
  intros e1 e2 e3 db.
  destruct (C5_list_events_sorted_filtered db "upcoming") as (_ & (_ & _ & H) & _).
  - discriminate.
  - repeat split; try reflexivity. exact H.
Defined.

(** ** Attendees of an event *)

Section Join.

Lemma filter_member_id ms i :
  NoDup (map Member.id ms) -> In i (map Member.id ms) ->
  exists m, In m ms /\ Member.id m = i /\
            filter (fun m => (Member.id m =? i)%Z) ms = [m].
Proof.
  induction ms as [|x ms IH]; simpl; [tauto|].
  intros Hnd Hin. inversion Hnd as [|? ? Hx Hms]; subst.
  destruct (Z.eqb_spec (Member.id x) i) as [Heq|Hne].
  - exists x. repeat split; auto. f_equal.
    apply filter_none. rewrite Forall_forall. intros y Hy.
    apply Z.eqb_neq. intros Hyi. apply Hx. rewrite Heq, <- Hyi.
    now apply in_map.
  - destruct Hin as [Hin|Hin]; [contradiction|].
    destruct (IH Hms Hin) as (m & Hm & Hi & Hf). exists m. auto.
Qed.

Lemma join_attendees_rows db event_id :
  consistent db ->
  Forall2 (annotates db)
          (filter (fun r => (RSVP.event_id r =? event_id)%Z) (rsvps db))
          (CommunityOrganizer.join_attendees db event_id).
Proof.
  intros [_ Hi _ Hr]. unfold CommunityOrganizer.join_attendees.
  assert (Hrows : Forall (fun r => In (RSVP.member_id r) (map Member.id (members db)))
                    (filter (fun r => (RSVP.event_id r =? event_id)%Z) (rsvps db))).
  { rewrite Forall_forall in *. intros r Hin. apply filter_In in Hin.
    now apply Hr. }
  induction Hrows as [|r rows Hin _ IH]; simpl; [constructor|].
  destruct (filter_member_id _ _ Hi Hin) as (m & Hm & Hid & Hf).
  rewrite Hf. simpl. constructor; [|exact IH].
  repeat split; simpl. exists m. auto.
Qed.

End Join.

(** C6. In a reachable store, for an event id the store can hold (a
    signed 64-bit integer), [event_attendees] returns one entry for every
    RSVP row of the event, whatever its response: the entries are, up to
    their order, the rows of the event, each with its response and timestamp
    and with the name and email of its member; they come in ascending order
    of the RSVP timestamp. *)
Theorem C6_event_attendees_all_rows :
  forall db E,
    reachable db ->
    INT64_MIN <= E <= INT64_MAX ->
    let rows := filter (fun r => (RSVP.event_id r =? E)%Z) (rsvps db) in
    exists attendees,
      CommunityOrganizer.event_attendees db E = Ok attendees /\
      (exists l, Permutation attendees l /\ Forall2 (annotates db) rows l) /\
      List.length attendees = List.length rows /\
      ascending a_rsvp_at attendees.
Proof.
  intros db E Hr HE rows. apply int64_ok_true in HE.
  pose proof (join_attendees_rows db E (reachable_consistent _ Hr)) as HJ.
  fold rows in HJ. unfold CommunityOrganizer.event_attendees. rewrite HE.
  eexists. split; [reflexivity|]. unfold CommunityOrganizer.attendee_rows.
  split; [|split].
  - exists (CommunityOrganizer.join_attendees db E).
    split; [apply order_by_perm|exact HJ].
  - rewrite order_by_length. symmetry. eapply Forall2_length; eauto.
  - apply order_by_ascending.
Qed.

(** A run of C6: three members answer "attending", "maybe" and "declined"
    for event 1, and one of them answers for event 2 as well. *)
Lemma C6_event_attendees_all_rows_witness :
  let db := run [AddMember "A" "a@x.com" "member" "2025-01-01T09:00:00";
                 AddMember "B" "b@x.com" "member" "2025-01-01T10:00:00";
                 AddMember "C" "c@x.com" "member" "2025-01-01T11:00:00";
                 CreateEvent "Meetup" "2025-06-01" "TBD" "" 50 (Some "a@x.com")
                             "2025-01-02T09:00:00";
                 Rsvp 1 "a@x.com" "attending" "" "2025-01-03T09:00:00";
                 Rsvp 2 "a@x.com" "attending" "" "2025-01-03T09:30:00";
                 Rsvp 1 "c@x.com" "maybe" "" "2025-01-03T10:00:00";
                 Rsvp 1 "b@x.com" "declined" "" "2025-01-03T11:00:00"] in
  exists attendees,
    CommunityOrganizer.event_attendees db 1 = Ok attendees /\
    attendees
    = [mkAttendee "A" "a@x.com" "attending" "2025-01-03T09:00:00";
       mkAttendee "C" "c@x.com" "maybe" "2025-01-03T10:00:00";
       mkAttendee "B" "b@x.com" "declined" "2025-01-03T11:00:00"] /\
    List.length attendees = 3%nat /\
    ascending a_rsvp_at attendees.
Proof.
  intros db.
  destruct (C6_event_attendees_all_rows db 1 (reachable_run _))
    as (attendees & Ha & _ & Hl & Hs).
  - unfold INT64_MIN, INT64_MAX. lia.
  - exists attendees. split; [exact Ha|].
    split; [now injection Ha as <-|]. split; [exact Hl|exact Hs].
Defined.

(** ** Creating events *)

(** C7 fails as stated: a member registered with the empty string as email
    exists, the same empty string is supplied as organizer email, and the
    created event has no organizer. *)
Lemma C7_create_event_empty_email_counterexample :
  let db := run [AddMember "A" "" "member" "2025-01-01T09:00:00"] in
  let m := Member.mk 1 "A" "" "member" "2025-01-01T09:00:00" 1 in
  In m (members db) /\ Member.email m = "" /\
  exists db' ev,
    CommunityOrganizer.create_event db "Meetup" "2025-06-01" "TBD" "" 50 (Some "")
                                    "2025-01-02T09:00:00" = Ok (db', ev) /\
    Event.organizer_id ev <> Some (Member.id m).
Proof.
  intros db m. split; [simpl; left; reflexivity|]. split; [reflexivity|].
  do 2 eexists. split; [reflexivity|]. simpl. discriminate.
Qed.

(** C7, amended.  In a reachable store [create_event] with a capacity the
    store can hold (a signed 64-bit integer) succeeds and appends the event
    it returns.  If [organizer_email] is a non-empty
    string equal to the email of an existing member, the event's organizer
    is that member's id; if it is omitted, empty, or the email of no member,
    the organizer is left unset. *)
Theorem C7_create_event_organizer :
  forall db title event_date location description capacity organizer_email now,
    reachable db ->
    INT64_MIN <= capacity <= INT64_MAX ->
    exists db' ev,
      CommunityOrganizer.create_event db title event_date location description
        capacity organizer_email now = Ok (db', ev) /\
      events db' = (events db ++ [ev])%list /\
      (forall m, In m (members db) -> Member.email m <> "" ->
                 organizer_email = Some (Member.email m) ->
                 Event.organizer_id ev = Some (Member.id m)) /\
      (organizer_email = None \/ organizer_email = Some "" \/
       (forall m, In m (members db) -> organizer_email <> Some (Member.email m)) ->
       Event.organizer_id ev = None).
Proof.
  intros db title event_date location description capacity organizer_email now Hr HC.
  apply int64_ok_true in HC.
  pose proof (reachable_consistent _ Hr) as Hc.
  unfold CommunityOrganizer.create_event. rewrite HC. do 2 eexists.
  split; [reflexivity|]. split; [reflexivity|]. simpl. split.
  - intros m Hin Hne ->.
    replace (truthy (Member.email m)) with true.
    + now apply select_member_id_unique; [apply (cons_emails _ Hc)|].
    + symmetry. unfold truthy. apply negb_true_iff. now apply String.eqb_neq.
  - intros [->|[->|Hno]]; [reflexivity|reflexivity|].
    destruct organizer_email as [e|]; [|reflexivity].
    destruct (truthy e); [|reflexivity].
    apply select_member_id_none. intros m Hin He. apply (Hno m Hin). now subst.
Qed.

(** A run of C7: the organizer of the new event is member 2. *)
Lemma C7_create_event_organizer_witness :
  let db := run [AddMember "A" "a@x.com" "member" "2025-01-01T09:00:00";
                 AddMember "B" "b@x.com" "member" "2025-01-01T10:00:00"] in
  exists db' ev,
    CommunityOrganizer.create_event db "Meetup" "2025-06-01" "TBD" "" 50
      (Some "b@x.com") "2025-01-02T09:00:00" = Ok (db', ev) /\
    events db' = [ev] /\
    Event.organizer_id ev = Some 2.
Proof.
  intros db.
  destruct (C7_create_event_organizer db "Meetup" "2025-06-01" "TBD" "" 50
              (Some "b@x.com") "2025-01-02T09:00:00" (reachable_run _))
    as (db' & ev & H1 & H2 & H3 & _); [unfold INT64_MIN, INT64_MAX; lia|].
  exists db', ev. split; [exact H1|]. split; [exact H2|].
  apply (H3 (Member.mk 2 "B" "b@x.com" "member" "2025-01-01T10:00:00" 1)).
  - simpl. right. left. reflexivity.
  - simpl. discriminate.
  - reflexivity.
Defined.

(** ** Export *)

(** C8. [export_data] returns a dictionary with exactly the four keys
    members, events, rsvps and exported_at.  The three lists hold one
    dictionary per row of the corresponding table, all rows in table order,
    whatever their active flag or response; each dictionary has the fields
    of its dataclass under their names and determines the row; exported_at
    is the timestamp string. *)
Theorem C8_export_data_contents :
  forall db now,
    let doc := CommunityOrganizer.export_data db now in
    dict_keys doc = ["members"; "events"; "rsvps"; "exported_at"] /\
    dict_get doc "members" = Some (VList (map asdict_member (members db))) /\
    dict_get doc "events" = Some (VList (map asdict_event (events db))) /\
    dict_get doc "rsvps" = Some (VList (map asdict_rsvp (rsvps db))) /\
    dict_get doc "exported_at" = Some (VStr now) /\
    (forall m, dict_keys (asdict_member m)
               = ["id"; "name"; "email"; "role"; "joined_at"; "active"]) /\
    (forall e, dict_keys (asdict_event e)
               = ["id"; "title"; "description"; "location"; "event_date";
                  "capacity"; "organizer_id"; "created_at"; "status"]) /\
    (forall r, dict_keys (asdict_rsvp r)
               = ["id"; "event_id"; "member_id"; "response"; "rsvp_at"; "notes"]) /\
    (forall m m', asdict_member m = asdict_member m' -> m = m') /\
    (forall e e', asdict_event e = asdict_event e' -> e = e') /\
    (forall r r', asdict_rsvp r = asdict_rsvp r' -> r = r').
Proof.
  intros db now doc. repeat split.
  - intros [] []; simpl; intros H; injection H; intros; subst; reflexivity.
  - intros [? ? ? ? ? ? o ? ?] [? ? ? ? ? ? o' ? ?]; simpl; intros H;
      injection H; intros; subst.
    destruct o, o'; simpl in *; congruence.
  - intros [] []; simpl; intros H; injection H; intros; subst; reflexivity.
Qed.

(** ** Member rows are only ever appended, and always active *)

Section MembersGrow.

Lemma apply_op_members db o :
  exists added,
    members (apply_op db o) = (members db ++ added)%list /\
    Forall (fun m => Member.active m = 1) added.
Proof.
  destruct o; unfold apply_op.
  - unfold CommunityOrganizer.add_member. destruct (existsb _ _); simpl.
    + exists []. now rewrite app_nil_r.
    + eexists. split; [reflexivity|]. now repeat constructor.
  - unfold CommunityOrganizer.create_event.
    destruct (int64_ok capacity); simpl; exists []; now rewrite app_nil_r.
  - unfold CommunityOrganizer.rsvp.
    destruct (CommunityOrganizer.select_member_id _ _); simpl;
      [destruct (int64_ok event_id); simpl|]; exists []; now rewrite app_nil_r.
Qed.

End MembersGrow.

(** C9. In every reachable store every member row has [active = 1]: each
    call leaves the existing member rows in place and at most appends rows
    with [active = 1].  Hence [list_members] returns the whole member table
    and the active-member count of [status] is the number of member rows. *)
Theorem C9_members_always_active :
  forall db path,
    reachable db ->
    Forall (fun m => Member.active m = 1) (members db) /\
    (forall o, exists added,
        members (apply_op db o) = (members db ++ added)%list /\
        Forall (fun m => Member.active m = 1) added) /\
    CommunityOrganizer.list_members db = members db /\
    active_members (CommunityOrganizer.status path db)
      = Z.of_nat (List.length (members db)).
Proof.
  intros db path Hr.
  pose proof (cons_active _ (reachable_consistent _ Hr)) as Ha.
  assert (Hf : filter (fun m => (Member.active m =? 1)%Z) (members db) = members db).
  { apply filter_all. eapply Forall_impl; [|exact Ha]. intros m. apply Z.eqb_eq. }
  split; [exact Ha|]. split; [intros o; apply apply_op_members|].
  split; [exact Hf|]. simpl. unfold CommunityOrganizer.count. now rewrite Hf.
Qed.

(** A run of C9: both registered members are listed and counted. *)
Lemma C9_members_always_active_witness :
  let db := run [AddMember "A" "a@x.com" "member" "2025-01-01T09:00:00";
                 AddMember "B" "b@x.com" "admin" "2025-01-01T10:00:00";
                 Rsvp 1 "a@x.com" "declined" "" "2025-01-03T09:00:00"] in
  CommunityOrganizer.list_members db = members db /\
  active_members (CommunityOrganizer.status "community-organizer.db" db) = 2.
Proof.
  intros db.
  destruct (C9_members_always_active db "community-organizer.db" (reachable_run _))
    as (_ & _ & Hl & Hn).
  split; [exact Hl|exact Hn].
Defined.

(** C10. A successful call changes at most its own table: [add_member]
    leaves the events and the RSVPs as they were, [create_event] the members
    and the RSVPs, [rsvp] the members and the events. *)
Theorem C10_operations_frame :
  forall db db',
    (forall name email role now m,
        CommunityOrganizer.add_member db name email role now = Ok (db', m) ->
        events db' = events db /\ rsvps db' = rsvps db) /\
    (forall title event_date location description capacity organizer_email now e,
        CommunityOrganizer.create_event db title event_date location description
          capacity organizer_email now = Ok (db', e) ->
        members db' = members db /\ rsvps db' = rsvps db) /\
    (forall event_id member_email response notes now r,
        CommunityOrganizer.rsvp db event_id member_email response notes now
          = Ok (db', r) ->
        members db' = members db /\ events db' = events db).
Proof.
  intros db db'. split; [|split].
  - intros name email role now m. unfold CommunityOrganizer.add_member.
    destruct (existsb _ _); [discriminate|]. intros [= <- _]. auto.
  - intros title event_date location description capacity organizer_email now e.
    unfold CommunityOrganizer.create_event.
    destruct (int64_ok capacity); [|discriminate]. intros [= <- _]. auto.
  - intros event_id member_email response notes now r.
    unfold CommunityOrganizer.rsvp.
    destruct (CommunityOrganizer.select_member_id _ _); [|discriminate].
    destruct (int64_ok event_id); [|discriminate].
    intros [= <- _]. auto.
Qed.

(** A run of C10: one call of each kind on a store with one row per table. *)
Lemma C10_operations_frame_witness :
  let db := run [AddMember "A" "a@x.com" "member" "2025-01-01T09:00:00";
                 CreateEvent "Meetup" "2025-06-01" "TBD" "" 50 (Some "a@x.com")
                             "2025-01-02T09:00:00";
                 Rsvp 1 "a@x.com" "maybe" "" "2025-01-03T09:00:00"] in
  let db1 := apply_op db (AddMember "B" "b@x.com" "member" "2025-01-04T09:00:00") in
  let db2 := apply_op db (CreateEvent "Picnic" "2025-07-01" "Park" "" 20 None
                                      "2025-01-04T09:00:00") in
  let db3 := apply_op db (Rsvp 1 "a@x.com" "attending" "" "2025-01-04T09:00:00") in
  (members db1 <> members db /\ events db1 = events db /\ rsvps db1 = rsvps db) /\
  (events db2 <> events db /\ members db2 = members db /\ rsvps db2 = rsvps db) /\
  (rsvps db3 <> rsvps db /\ members db3 = members db /\ events db3 = events db).
Proof.
  intros db db1 db2 db3.
  destruct (C10_operations_frame db db1) as (H1 & _ & _).
  destruct (C10_operations_frame db db2) as (_ & H2 & _).
  destruct (C10_operations_frame db db3) as (_ & _ & H3).
  split; [|split].
  - split; [simpl; discriminate|].
    apply (H1 "B" "b@x.com" "member" "2025-01-04T09:00:00"
              (Member.mk 2 "B" "b@x.com" "member" "2025-01-04T09:00:00" 1)).
    reflexivity.
  - split; [simpl; discriminate|].
    apply (H2 "Picnic" "2025-07-01" "Park" "" 20 None "2025-01-04T09:00:00"
              (Event.mk 2 "Picnic" "" "Park" "2025-07-01" 20 None
                        "2025-01-04T09:00:00" "upcoming")).
    reflexivity.
  - split; [simpl; discriminate|].
    apply (H3 1 "a@x.com" "attending" "" "2025-01-04T09:00:00"
              (RSVP.mk 2 1 1 "attending" "2025-01-04T09:00:00" "")).
    reflexivity.
Defined.

(** * Further properties of the data store *)

(** ** Registration and lookup by email *)

Section Registration.
Import CommunityOrganizer.

Lemma existsb_email_none db e :
  (forall m, In m (members db) -> Member.email m <> e) ->
  existsb (fun m => Member.email m =? e) (members db) = false.
Proof.
  intros H. destruct (existsb _ _) eqn:Hex; [|reflexivity].
  apply existsb_exists in Hex. destruct Hex as (m & Hin & He).
  apply String.eqb_eq in He. now apply H in Hin.
Qed.

Lemma find_skip {A : Type} (f : A -> bool) l l' :
  (forall x, In x l -> f x = false) -> find f (l ++ l') = find f l'.
Proof.
  induction l as [|x l IH]; simpl; intros H; [reflexivity|].
  rewrite (H x (or_introl eq_refl)). apply IH. intros y Hy. apply H. now right.
Qed.

Lemma find_keep {A : Type} (f : A -> bool) l l' x :
  find f l = Some x -> find f (l ++ l') = Some x.
Proof.
  induction l as [|y l IH]; simpl; [discriminate|].
  destruct (f y); auto.
Qed.

Lemma select_member_id_app db db' added e i :
  members db' = (members db ++ added)%list ->
  select_member_id db e = Some i -> select_member_id db' e = Some i.
Proof.
  unfold select_member_id. intros ->.
  destruct (find _ (members db)) as [m|] eqn:Hf; [|discriminate].
  now rewrite (find_keep _ _ added _ Hf).
Qed.

Lemma fold_apply_op_members ops :
  forall db, exists added,
    members (fold_left apply_op ops db) = (members db ++ added)%list.
Proof.
  induction ops as [|o ops IH]; simpl; intros db.
  - exists []. now rewrite app_nil_r.
  - destruct (IH (apply_op db o)) as (a2 & H2).
    destruct (apply_op_members db o) as (a1 & H1 & _).
    exists (a1 ++ a2)%list. now rewrite H2, H1, app_assoc.
Qed.

Lemma add_member_ok db name email role now :
  (forall m, In m (members db) -> Member.email m <> email) ->
  exists db' m, add_member db name email role now = Ok (db', m).
Proof.
  intros H. unfold add_member. rewrite (existsb_email_none _ _ H). eauto.
Qed.

End Registration.

(** X1. Registering an email that no member row carries succeeds: the
    returned member is the row appended to the table, with the given name,
    email, role and timestamp, active, under an id no other row has; the
    email then resolves to that id and the member is listed. *)
Theorem X1_add_member_registers :
  forall db name email role now,
    (forall m, In m (members db) -> Member.email m <> email) ->
    exists db' m,
      CommunityOrganizer.add_member db name email role now = Ok (db', m) /\
      members db' = (members db ++ [m])%list /\
      Member.name m = name /\ Member.email m = email /\ Member.role m = role /\
      Member.joined_at m = now /\ Member.active m = 1 /\
      ~ In (Member.id m) (map Member.id (members db)) /\
      CommunityOrganizer.select_member_id db' email = Some (Member.id m) /\
      In m (CommunityOrganizer.list_members db').
Proof.
  intros db name email role now H.
  unfold CommunityOrganizer.add_member. rewrite (existsb_email_none _ _ H).
  do 2 eexists. split; [reflexivity|]. simpl.
  repeat (split; [reflexivity|]). split; [apply next_rowid_fresh|]. split.
  - unfold CommunityOrganizer.select_member_id. simpl. rewrite find_skip.
    + simpl. now rewrite String.eqb_refl.
    + intros m Hin. apply String.eqb_neq. now apply H.
  - unfold CommunityOrganizer.list_members. simpl. apply filter_In. split.
    + apply in_or_app. right. now left.
    + reflexivity.
Qed.

(** A run of X1: a second member joins. *)
Lemma X1_add_member_registers_witness :
  let db := run [AddMember "A" "a@x.com" "member" "2025-01-01T09:00:00"] in
  exists db' m,
    CommunityOrganizer.add_member db "B" "b@x.com" "admin" "2025-01-02T09:00:00"
      = Ok (db', m) /\
    m = Member.mk 2 "B" "b@x.com" "admin" "2025-01-02T09:00:00" 1 /\
    CommunityOrganizer.select_member_id db' "b@x.com" = Some 2.
Proof.
  intros db.
  destruct (X1_add_member_registers db "B" "b@x.com" "admin" "2025-01-02T09:00:00")
    as (db' & m & H1 & _ & _ & _ & _ & _ & _ & _ & _ & _).
  - simpl. intros m [<-|[]]. simpl. discriminate.
  - exists db', m. split; [exact H1|].
    cbv in H1. injection H1 as <- <-. split; reflexivity.
Defined.

(** X2. What decides whether a call of the data store succeeds:
    [add_member] succeeds exactly when no member row has the email;
    [create_event] exactly when the capacity is a signed 64-bit integer;
    [rsvp] exactly when some member row has the email and the event id is a
    signed 64-bit integer (the events table, capacities and earlier
    responses play no part). *)
Theorem X2_success_conditions :
  forall db,
    (forall name email role now,
        (exists db' m,
            CommunityOrganizer.add_member db name email role now = Ok (db', m)) <->
        (forall m, In m (members db) -> Member.email m <> email)) /\
    (forall title event_date location description capacity organizer_email now,
        (exists db' e,
            CommunityOrganizer.create_event db title event_date location description
              capacity organizer_email now = Ok (db', e)) <->
        INT64_MIN <= capacity <= INT64_MAX) /\
    (forall event_id member_email response notes now,
        (exists db' r,
            CommunityOrganizer.rsvp db event_id member_email response notes now
              = Ok (db', r)) <->
        (exists m, In m (members db) /\ Member.email m = member_email) /\
        INT64_MIN <= event_id <= INT64_MAX).
Proof.
  intros db. split; [|split].
  - intros name email role now. split.
    + intros (db' & m & H) m0 Hin He.
      unfold CommunityOrganizer.add_member in H.
      destruct (existsb _ _) eqn:Hex; [discriminate|].
      apply existsb_email_false in Hex. apply Hex. rewrite <- He.
      now apply in_map.
    + apply add_member_ok.
  - intros title event_date location description capacity organizer_email now.
    rewrite <- int64_ok_true. unfold CommunityOrganizer.create_event.
    destruct (int64_ok capacity); split.
    + reflexivity.
    + intros _. eauto.
    + intros (db' & e & H). discriminate.
    + discriminate.
  - intros event_id member_email response notes now.
    rewrite <- int64_ok_true. split.
    + intros (db' & r & H). unfold CommunityOrganizer.rsvp in H.
      destruct (CommunityOrganizer.select_member_id db member_email) as [i|] eqn:Hs;
        [|discriminate].
      destruct (int64_ok event_id); [|discriminate].
      apply select_member_id_in in Hs. destruct Hs as (m & Hin & He & _). eauto.
    + intros [(m & Hin & He) HE].
      destruct (CommunityOrganizer.select_member_id db member_email) as [i|] eqn:Hs.
      * destruct (rsvp_ok db event_id member_email response notes now i Hs HE)
          as (db' & Hok & _). eauto.
      * unfold CommunityOrganizer.select_member_id in Hs.
        destruct (find _ _) eqn:Hf; [discriminate|].
        apply (find_none _ _ Hf) in Hin. apply String.eqb_neq in Hin. contradiction.
Qed.

(** X7. Member rows are never removed or rewritten: after any further calls
    the member table is the old one with rows appended, and an email that
    resolved to an id still resolves to the same id. *)
Theorem X7_member_lookup_is_stable :
  forall db ops email i,
    CommunityOrganizer.select_member_id db email = Some i ->
    (exists added,
        members (fold_left apply_op ops db) = (members db ++ added)%list) /\
    CommunityOrganizer.select_member_id (fold_left apply_op ops db) email = Some i.
Proof.
  intros db ops email i Hs.
  destruct (fold_apply_op_members ops db) as (added & Ha).
  split; [eauto|]. eapply select_member_id_app; eauto.
Qed.

(** A run of X7: a rejected duplicate, another member, an event and an RSVP
    later, "a@x.com" is still member 1. *)
Lemma X7_member_lookup_is_stable_witness :
  let db := run [AddMember "A" "a@x.com" "member" "2025-01-01T09:00:00"] in
  let ops := [AddMember "Z" "a@x.com" "admin" "2025-01-02T09:00:00";
              AddMember "B" "b@x.com" "member" "2025-01-02T10:00:00";
              CreateEvent "Meetup" "2025-06-01" "TBD" "" 50 None "2025-01-02T11:00:00";
              Rsvp 1 "a@x.com" "maybe" "" "2025-01-03T09:00:00"] in
  CommunityOrganizer.select_member_id (fold_left apply_op ops db) "a@x.com" = Some 1.
Proof.
  intros db ops.
  apply (X7_member_lookup_is_stable db ops "a@x.com" 1). reflexivity.
Defined.

(** X15. In a reachable store no two member rows share an email or an id,
    so an email resolves to an id exactly when the member row with that
    email has that id. *)
Theorem X15_member_emails_unique :
  forall db,
    reachable db ->
    NoDup (map Member.email (members db)) /\
    NoDup (map Member.id (members db)) /\
    (forall email i,
        CommunityOrganizer.select_member_id db email = Some i <->
        exists m, In m (members db) /\ Member.email m = email /\ Member.id m = i).
Proof.
  intros db Hr. pose proof (reachable_consistent _ Hr) as Hc.
  split; [apply (cons_emails _ Hc)|]. split; [apply (cons_ids _ Hc)|].
  intros email i. split; [apply select_member_id_in|].
  intros (m & Hin & <- & <-).
  apply select_member_id_unique; [apply (cons_emails _ Hc)|exact Hin].
Qed.

(** A run of X15. *)
Lemma X15_member_emails_unique_witness :
  let db := run [AddMember "A" "a@x.com" "member" "2025-01-01T09:00:00";
                 AddMember "B" "b@x.com" "member" "2025-01-01T10:00:00";
                 AddMember "C" "a@x.com" "member" "2025-01-01T11:00:00"] in
  map Member.email (members db) = ["a@x.com"; "b@x.com"] /\
  NoDup (map Member.email (members db)).
Proof.
  intros db. split; [reflexivity|].
  apply (X15_member_emails_unique db (reachable_run _)).
Defined.

(** ** Row identifiers *)

Section RowIds.
Import CommunityOrganizer.

Lemma ids_upto_S n : ids_upto (S n) = (ids_upto n ++ [Z.of_nat n + 1])%list.
Proof.
  unfold ids_upto. rewrite seq_S, map_app. simpl. do 2 f_equal. lia.
Qed.

Lemma max_rowid_le ids n :
  0 <= n -> (forall x, In x ids -> x <= n) -> max_rowid ids <= n.
Proof.
  intros Hn. induction ids as [|y ids IH]; simpl; intros H; [exact Hn|].
  assert (y <= n) by (apply H; now left).
  assert (max_rowid ids <= n) by (apply IH; intros x Hx; apply H; now right).
  lia.
Qed.

Lemma ids_upto_le n x : In x (ids_upto n) -> x <= Z.of_nat n.
Proof.
  unfold ids_upto. intros H. apply in_map_iff in H.
  destruct H as (k & <- & Hk). apply in_seq in Hk. lia.
Qed.

Lemma next_rowid_upto n :
  next_rowid (Z.of_nat n) (ids_upto n) = Z.of_nat n + 1.
Proof.
  unfold next_rowid.
  pose proof (max_rowid_le (ids_upto n) (Z.of_nat n) (Zle_0_nat n) (ids_upto_le n)).
  lia.
Qed.

(** Members and events are only ever appended, so their ids count them. *)
Lemma reachable_ids db :
  reachable db ->
  (seq_members db = Z.of_nat (List.length (members db)) /\
   map Member.id (members db) = ids_upto (List.length (members db))) /\
  (seq_events db = Z.of_nat (List.length (events db)) /\
   map Event.id (events db) = ids_upto (List.length (events db))).
Proof.
  induction 1 as [|db o _ [[Hsm Hm] [Hse He]]]; [now repeat split|].
  destruct o; unfold apply_op.
  - unfold add_member. destruct (existsb _ _); simpl; [now repeat split|].
    rewrite Hsm, Hm, next_rowid_upto, length_app, map_app, Hm. simpl.
    rewrite Nat.add_1_r, ids_upto_S. repeat split; auto. lia.
  - unfold create_event. destruct (int64_ok capacity); simpl; [|now repeat split].
    rewrite Hse, He, next_rowid_upto, length_app, map_app, He. simpl.
    rewrite Nat.add_1_r, ids_upto_S. repeat split; auto. lia.
  - unfold rsvp. destruct (select_member_id _ _); simpl; [|now repeat split].
    destruct (int64_ok event_id); simpl; now repeat split.
Qed.

(** RSVP rows can be replaced, so their ids only grow: the rows are in
    increasing id order, below the AUTOINCREMENT mark. *)
Lemma reachable_rsvp_ids db :
  reachable db ->
  0 <= seq_rsvps db /\
  Forall (fun r => 0 < RSVP.id r <= seq_rsvps db) (rsvps db) /\
  StronglySorted Z.lt (map RSVP.id (rsvps db)).
Proof.
  induction 1 as [|db o _ (H0 & Hle & Hs)]; [simpl; repeat split; try constructor; lia|].
  destruct o; unfold apply_op.
  - unfold add_member. destruct (existsb _ _); simpl; auto.
  - unfold create_event. destruct (int64_ok capacity); simpl; auto.
  - unfold rsvp. destruct (select_member_id _ _); simpl; auto.
    destruct (int64_ok event_id); simpl; auto.
    assert (Hn : next_rowid (seq_rsvps db) (map RSVP.id (rsvps db)) = seq_rsvps db + 1).
    { unfold next_rowid.
      assert (max_rowid (map RSVP.id (rsvps db)) <= seq_rsvps db); [|lia].
      apply max_rowid_le; [exact H0|]. intros x Hx. apply in_map_iff in Hx.
      destruct Hx as (r & <- & Hr). rewrite Forall_forall in Hle.
      now apply Hle. }
    rewrite Hn. split; [lia|]. split.
    + apply Forall_app. split.
      * rewrite Forall_forall in *. intros r Hr. apply filter_In in Hr.
        destruct Hr as [Hr _]. apply Hle in Hr. lia.
      * repeat constructor; simpl; lia.
    + rewrite map_app. simpl.
      clear Hn. induction (rsvps db) as [|r rs IH]; simpl.
      * repeat constructor.
      * apply StronglySorted_inv in Hs. destruct Hs as [Hs Hr].
        apply Forall_cons_iff in Hle. destruct Hle as [Hr0 Hle].
        specialize (IH Hle Hs).
        destruct (negb (same_pair event_id z r)); simpl; [|exact IH].
        constructor; [exact IH|]. apply Forall_app. split.
        -- rewrite Forall_forall in *. intros x Hx. apply Hr.
           apply in_map_iff in Hx. destruct Hx as (r' & <- & Hr').
           apply filter_In in Hr'. apply in_map. tauto.
        -- repeat constructor. lia.
Qed.

End RowIds.

(** X3. In a reachable store the ids of the member rows are 1, 2, ..., n in
    table order, and likewise for the event rows; the next member registered
    gets id n + 1 and the next event created gets the number of events plus
    one. *)
Theorem X3_ids_count_rows :
  forall db,
    reachable db ->
    map Member.id (members db) = ids_upto (List.length (members db)) /\
    map Event.id (events db) = ids_upto (List.length (events db)) /\
    (forall name email role now db' m,
        CommunityOrganizer.add_member db name email role now = Ok (db', m) ->
        Member.id m = Z.of_nat (List.length (members db)) + 1) /\
    (forall title event_date location description capacity organizer_email now db' e,
        CommunityOrganizer.create_event db title event_date location description
          capacity organizer_email now = Ok (db', e) ->
        Event.id e = Z.of_nat (List.length (events db)) + 1).
Proof.
  intros db Hr. destruct (reachable_ids db Hr) as [[Hsm Hm] [Hse He]].
  split; [exact Hm|]. split; [exact He|]. split.
  - intros name email role now db' m. unfold CommunityOrganizer.add_member.
    destruct (existsb _ _); [discriminate|]. intros [= _ <-]. simpl.
    rewrite Hsm, Hm. apply next_rowid_upto.
  - intros title event_date location description capacity organizer_email now db' e.
    unfold CommunityOrganizer.create_event.
    destruct (int64_ok capacity); [|discriminate]. intros [= _ <-]. simpl.
    rewrite Hse, He. apply next_rowid_upto.
Qed.

(** A run of X3: the rejected duplicate does not use up an id. *)
Lemma X3_ids_count_rows_witness :
  let db := run [AddMember "A" "a@x.com" "member" "2025-01-01T09:00:00";
                 AddMember "Z" "a@x.com" "member" "2025-01-01T10:00:00";
                 AddMember "B" "b@x.com" "member" "2025-01-01T11:00:00";
                 CreateEvent "Meetup" "2025-06-01" "TBD" "" 50 None
                             "2025-01-02T09:00:00"] in
  map Member.id (members db) = [1; 2] /\ map Event.id (events db) = [1].
Proof.
  intros db.
  destruct (X3_ids_count_rows db (reachable_run _)) as (Hm & He & _).
  split; [exact Hm|exact He].
Defined.

Section RsvpTable.
Import CommunityOrganizer.

Lemma StronglySorted_lt_NoDup l : StronglySorted Z.lt l -> NoDup l.
Proof.
  induction 1 as [|x l _ IH Hx]; constructor; [|exact IH].
  intros Hin. rewrite Forall_forall in Hx. apply Hx in Hin. lia.
Qed.

Lemma rsvp_apply_op db e em resp notes now db' r :
  rsvp db e em resp notes now = Ok (db', r) ->
  apply_op db (Rsvp e em resp notes now) = db'.
Proof. intros H. unfold apply_op. now rewrite H. Qed.

Lemma rsvp_inv db e em resp notes now db' r :
  rsvp db e em resp notes now = Ok (db', r) ->
  select_member_id db em = Some (RSVP.member_id r) /\
  r = RSVP.mk (next_rowid (seq_rsvps db) (map RSVP.id (rsvps db)))
              e (RSVP.member_id r) resp now notes /\
  rsvps db' = (filter (fun x => negb (same_pair e (RSVP.member_id r) x)) (rsvps db)
               ++ [r])%list /\
  members db' = members db /\ events db' = events db /\
  seq_rsvps db' = RSVP.id r.
Proof.
  unfold rsvp. destruct (select_member_id db em) as [i|]; [|discriminate].
  destruct (int64_ok e); [|discriminate].
  intros [= <- <-]. simpl. repeat split.
Qed.

Lemma filter_filter_disjoint {A : Type} (p q : A -> bool) l :
  (forall x, p x = true -> q x = false) ->
  filter p (filter (fun x => negb (q x)) l) = filter p l.
Proof.
  intros H. induction l as [|x l IH]; simpl; [reflexivity|].
  destruct (p x) eqn:Hp.
  - rewrite (H x Hp). simpl. now rewrite Hp, IH.
  - destruct (q x); simpl; [exact IH|]. now rewrite Hp.
Qed.

Lemma filter_split_length {A : Type} (p : A -> bool) l :
  (List.length (filter (fun x => negb (p x)) l) + List.length (filter p l)
   = List.length l)%nat.
Proof.
  induction l as [|x l IH]; simpl; [reflexivity|].
  destruct (p x); simpl; lia.
Qed.

End RsvpTable.

(** X4. In a reachable store a recorded RSVP gets an id one above the
    AUTOINCREMENT mark, larger than the id of every row in the table,
    the replaced row included; ids are never reused, and the rows stay in
    strictly increasing id order. *)
Theorem X4_rsvp_ids_grow :
  forall db event_id member_email response notes now db' r,
    reachable db ->
    CommunityOrganizer.rsvp db event_id member_email response notes now
      = Ok (db', r) ->
    (forall r0, In r0 (rsvps db) -> RSVP.id r0 < RSVP.id r) /\
    RSVP.id r = seq_rsvps db + 1 /\
    seq_rsvps db' = RSVP.id r /\
    StronglySorted Z.lt (map RSVP.id (rsvps db')) /\
    NoDup (map RSVP.id (rsvps db')).
Proof.
  intros db event_id member_email response notes now db' r Hr H.
  destruct (reachable_rsvp_ids db Hr) as (H0 & Hle & _).
  assert (Hr' : reachable db').
  { rewrite <- (rsvp_apply_op _ _ _ _ _ _ _ _ H). now constructor. }
  destruct (reachable_rsvp_ids db' Hr') as (_ & _ & Hs').
  destruct (rsvp_inv _ _ _ _ _ _ _ _ H) as (_ & Hrow & _ & _ & _ & Hseq).
  assert (Hid : RSVP.id r = seq_rsvps db + 1).
  { rewrite Hrow. simpl. unfold next_rowid.
    assert (max_rowid (map RSVP.id (rsvps db)) <= seq_rsvps db); [|lia].
    apply max_rowid_le; [exact H0|]. intros x Hx. apply in_map_iff in Hx.
    destruct Hx as (r0 & <- & Hr0). rewrite Forall_forall in Hle.
    now apply Hle. }
  split.
  { intros r0 Hin. rewrite Forall_forall in Hle. apply Hle in Hin. lia. }
  split; [exact Hid|]. split; [exact Hseq|]. split; [exact Hs'|].
  now apply StronglySorted_lt_NoDup.
Qed.

(** A run of X4: member 1 answers event 1 again; row 1 is replaced by
    row 3. *)
Lemma X4_rsvp_ids_grow_witness :
  let db := run [AddMember "A" "a@x.com" "member" "2025-01-01T09:00:00";
                 AddMember "B" "b@x.com" "member" "2025-01-01T10:00:00";
                 Rsvp 1 "a@x.com" "maybe" "" "2025-01-03T09:00:00";
                 Rsvp 1 "b@x.com" "attending" "" "2025-01-03T10:00:00"] in
  exists db' r,
    CommunityOrganizer.rsvp db 1 "a@x.com" "attending" "" "2025-01-04T09:00:00"
      = Ok (db', r) /\
    map RSVP.id (rsvps db) = [1; 2] /\
    map RSVP.id (rsvps db') = [2; 3] /\
    RSVP.id r = 3 /\
    (forall r0, In r0 (rsvps db) -> RSVP.id r0 < RSVP.id r).
Proof.
  intros db. do 2 eexists. split; [reflexivity|].
  split; [reflexivity|]. split; [reflexivity|]. split; [reflexivity|].
  eapply (X4_rsvp_ids_grow db 1 "a@x.com" "attending" "" "2025-01-04T09:00:00").
  - apply reachable_run.
  - reflexivity.
Defined.

(** X5. Recording an RSVP touches only the rows of its own (event, member)
    pair: the rows of every other pair are the same before and after. *)
Theorem X5_rsvp_keeps_other_pairs :
  forall db event_id member_email response notes now db' r e i,
    CommunityOrganizer.rsvp db event_id member_email response notes now
      = Ok (db', r) ->
    e <> event_id \/ i <> RSVP.member_id r ->
    filter (CommunityOrganizer.same_pair e i) (rsvps db')
    = filter (CommunityOrganizer.same_pair e i) (rsvps db).
Proof.
  intros db event_id member_email response notes now db' r e i H Hne.
  destruct (rsvp_inv _ _ _ _ _ _ _ _ H) as (_ & Hrow & Hrs & _).
  assert (Hx : forall x, CommunityOrganizer.same_pair e i x = true ->
                         CommunityOrganizer.same_pair event_id (RSVP.member_id r) x
                         = false).
  { intros x Hp. apply same_pair_true in Hp. destruct Hp as [<- <-].
    destruct (CommunityOrganizer.same_pair _ _ x) eqn:Hq; [|reflexivity].
    apply same_pair_true in Hq. destruct Hq as [Hq1 Hq2]. exfalso.
    destruct Hne as [Hne|Hne]; [now apply Hne|now apply Hne]. }
  rewrite Hrs, filter_app, (filter_filter_disjoint _ _ _ Hx).
  cbn [filter].
  destruct (CommunityOrganizer.same_pair e i r) eqn:Hp; [|apply app_nil_r].
  apply Hx in Hp. rewrite Hrow in Hp at 2. unfold CommunityOrganizer.same_pair in Hp.
  simpl in Hp. rewrite !Z.eqb_refl in Hp. discriminate.
Qed.

(** A run of X5: member 1 changes the answer for event 1; the rows of
    member 2 for event 1 and of member 1 for event 2 stay. *)
Lemma X5_rsvp_keeps_other_pairs_witness :
  let db := run [AddMember "A" "a@x.com" "member" "2025-01-01T09:00:00";
                 AddMember "B" "b@x.com" "member" "2025-01-01T10:00:00";
                 Rsvp 1 "a@x.com" "maybe" "" "2025-01-03T09:00:00";
                 Rsvp 1 "b@x.com" "attending" "" "2025-01-03T10:00:00";
                 Rsvp 2 "a@x.com" "declined" "" "2025-01-03T11:00:00"] in
  let db' := apply_op db (Rsvp 1 "a@x.com" "attending" "" "2025-01-04T09:00:00") in
  filter (CommunityOrganizer.same_pair 1 2) (rsvps db')
  = filter (CommunityOrganizer.same_pair 1 2) (rsvps db) /\
  filter (CommunityOrganizer.same_pair 2 1) (rsvps db')
  = filter (CommunityOrganizer.same_pair 2 1) (rsvps db).
Proof.
  intros db db'. split.
  - apply (X5_rsvp_keeps_other_pairs db 1 "a@x.com" "attending" ""
             "2025-01-04T09:00:00" db'
             (RSVP.mk 4 1 1 "attending" "2025-01-04T09:00:00" "") 1 2).
    + reflexivity.
    + right. simpl. discriminate.
  - apply (X5_rsvp_keeps_other_pairs db 1 "a@x.com" "attending" ""
             "2025-01-04T09:00:00" db'
             (RSVP.mk 4 1 1 "attending" "2025-01-04T09:00:00" "") 2 1).
    + reflexivity.
    + left. discriminate.
Defined.

Section RsvpCount.
Import CommunityOrganizer.

Lemma existsb_false_filter {A : Type} (p : A -> bool) l :
  existsb p l = false -> filter p l = [].
Proof.
  induction l as [|x l IH]; simpl; [reflexivity|].
  destruct (p x); simpl; [discriminate|exact IH].
Qed.

Lemma existsb_true_filter {A : Type} (p : A -> bool) l :
  existsb p l = true -> (1 <= List.length (filter p l))%nat.
Proof.
  induction l as [|x l IH]; simpl; [discriminate|].
  destruct (p x); simpl; [lia|exact IH].
Qed.

End RsvpCount.

(** X6. In a reachable store a recorded RSVP adds one row when the member
    had no row for the event, and leaves the number of rows as it was when
    the member had one (the row is replaced). *)
Theorem X6_rsvp_row_count :
  forall db event_id member_email response notes now db' r,
    reachable db ->
    CommunityOrganizer.rsvp db event_id member_email response notes now
      = Ok (db', r) ->
    List.length (rsvps db')
    = if existsb (CommunityOrganizer.same_pair event_id (RSVP.member_id r)) (rsvps db)
      then List.length (rsvps db)
      else S (List.length (rsvps db)).
Proof.
  intros db event_id member_email response notes now db' r Hr H.
  destruct (rsvp_inv _ _ _ _ _ _ _ _ H) as (_ & _ & Hrs & _).
  pose proof (reachable_pair_unique db Hr event_id (RSVP.member_id r)) as Hu.
  pose proof (filter_split_length
                (CommunityOrganizer.same_pair event_id (RSVP.member_id r))
                (rsvps db)) as Hsplit.
  rewrite Hrs, length_app. simpl.
  destruct (existsb _ _) eqn:Hex.
  - apply existsb_true_filter in Hex. lia.
  - apply existsb_false_filter in Hex. rewrite Hex in Hsplit. simpl in Hsplit. lia.
Qed.

(** A run of X6: the second answer of member 1 for event 1 keeps the table
    at two rows. *)
Lemma X6_rsvp_row_count_witness :
  let db := run [AddMember "A" "a@x.com" "member" "2025-01-01T09:00:00";
                 Rsvp 1 "a@x.com" "maybe" "" "2025-01-03T09:00:00";
                 Rsvp 2 "a@x.com" "maybe" "" "2025-01-03T10:00:00"] in
  let db' := apply_op db (Rsvp 1 "a@x.com" "attending" "" "2025-01-04T09:00:00") in
  List.length (rsvps db') = 2%nat.
Proof.
  intros db db'.
  apply (X6_rsvp_row_count db 1 "a@x.com" "attending" "" "2025-01-04T09:00:00" db'
           (RSVP.mk 3 1 1 "attending" "2025-01-04T09:00:00" "")).
  - apply reachable_run.
  - reflexivity.
Defined.

(** ** References and statuses of stored rows *)

Section EventRows.
Import CommunityOrganizer.

(** An organizer reference that is unset or is the id of a member row. *)
Lemma reachable_events db :
  reachable db ->
  Forall (fun e => Event.status e = "upcoming" /\
                   forall i, Event.organizer_id e = Some i ->
                             In i (map Member.id (members db)))
         (events db).
Proof.
  induction 1 as [|db o _ IH]; [constructor|].
  destruct o; unfold apply_op.
  - unfold add_member. destruct (existsb _ _); simpl; [exact IH|].
    eapply Forall_impl; [|exact IH]. simpl. intros e [Hs Ho].
    split; [exact Hs|]. intros i Hi. rewrite map_app. apply in_or_app.
    left. now apply Ho.
  - unfold create_event. destruct (int64_ok capacity); simpl; [|exact IH].
    apply Forall_app. split; [exact IH|].
    repeat constructor. simpl. intros i.
    destruct organizer_email as [e|]; [|discriminate].
    destruct (truthy e); [|discriminate].
    intros Hs. apply select_member_id_in in Hs.
    destruct Hs as (m & Hin & _ & <-). now apply in_map.
  - unfold rsvp. destruct (select_member_id _ _); simpl; [|exact IH].
    destruct (int64_ok event_id); simpl; exact IH.
Qed.

End EventRows.

(** X8. In a reachable store every reference to a member is the id of a
    member row: the organizer of every event, when set, and the member of
    every RSVP. *)
Theorem X8_member_references_resolve :
  forall db,
    reachable db ->
    (forall e i, In e (events db) -> Event.organizer_id e = Some i ->
                 exists m, In m (members db) /\ Member.id m = i) /\
    (forall r, In r (rsvps db) ->
               exists m, In m (members db) /\ Member.id m = RSVP.member_id r).
Proof.
  intros db Hr. split.
  - intros e i Hin Ho. pose proof (reachable_events db Hr) as He.
    rewrite Forall_forall in He. destruct (He e Hin) as [_ Hi].
    apply Hi in Ho. apply in_map_iff in Ho. destruct Ho as (m & <- & Hm). eauto.
  - intros r Hin. pose proof (cons_refs _ (reachable_consistent _ Hr)) as Hf.
    rewrite Forall_forall in Hf. apply Hf in Hin. apply in_map_iff in Hin.
    destruct Hin as (m & <- & Hm). eauto.
Qed.

(** A run of X8: the organizer "b@x.com" is unknown when the first event is
    created and known when the second is. *)
Lemma X8_member_references_resolve_witness :
  let db := run [AddMember "A" "a@x.com" "member" "2025-01-01T09:00:00";
                 CreateEvent "Meetup" "2025-06-01" "TBD" "" 50 (Some "b@x.com")
                             "2025-01-02T09:00:00";
                 AddMember "B" "b@x.com" "member" "2025-01-02T10:00:00";
                 CreateEvent "Picnic" "2025-07-01" "Park" "" 20 (Some "b@x.com")
                             "2025-01-02T11:00:00";
                 Rsvp 5 "b@x.com" "maybe" "" "2025-01-03T09:00:00"] in
  map Event.organizer_id (events db) = [None; Some 2] /\
  (forall r, In r (rsvps db) ->
             exists m, In m (members db) /\ Member.id m = RSVP.member_id r).
Proof.
  intros db. split; [reflexivity|].
  apply (X8_member_references_resolve db (reachable_run _)).
Defined.

(** X9. No call changes the status of an event: in a reachable store every
    event is "upcoming".  Filtering by "upcoming" therefore lists all
    events, and filtering by any other non-empty status lists none. *)
Theorem X9_events_stay_upcoming :
  forall db,
    reachable db ->
    (forall e, In e (events db) -> Event.status e = "upcoming") /\
    CommunityOrganizer.list_events db (Some "upcoming")
    = CommunityOrganizer.list_events db None /\
    (forall s, s <> "upcoming" -> s <> "" ->
               CommunityOrganizer.list_events db (Some s) = []).
Proof.
  intros db Hr. pose proof (reachable_events db Hr) as He.
  assert (Hup : forall e, In e (events db) -> Event.status e = "upcoming").
  { intros e Hin. rewrite Forall_forall in He. now apply He. }
  split; [exact Hup|]. split.
  - unfold CommunityOrganizer.list_events. simpl. f_equal.
    apply filter_all. rewrite Forall_forall. intros e Hin.
    rewrite (Hup e Hin). reflexivity.
  - intros s Hs Hne. unfold CommunityOrganizer.list_events.
    replace (truthy s) with true.
    + replace (filter _ (events db)) with (@nil Event.t); [reflexivity|].
      symmetry. apply filter_none. rewrite Forall_forall. intros e Hin.
      rewrite (Hup e Hin). apply String.eqb_neq. congruence.
    + symmetry. unfold truthy. apply negb_true_iff. now apply String.eqb_neq.
Qed.

(** A run of X9. *)
Lemma X9_events_stay_upcoming_witness :
  let db := run [CreateEvent "Meetup" "2025-06-01" "TBD" "" 50 None
                             "2025-01-02T09:00:00";
                 CreateEvent "Picnic" "2025-05-01" "Park" "" 20 None
                             "2025-01-02T10:00:00"] in
  map Event.title (CommunityOrganizer.list_events db (Some "upcoming"))
  = ["Picnic"; "Meetup"] /\
  CommunityOrganizer.list_events db (Some "cancelled") = [].
Proof.
  intros db.
  destruct (X9_events_stay_upcoming db (reachable_run _)) as (_ & _ & H).
  split; [reflexivity|]. apply H; discriminate.
Defined.

(** ** Attendees after RSVPs *)

Section AttendeeRows.
Import CommunityOrganizer.

Lemma Forall2_In_l {A B : Type} (R : A -> B -> Prop) l l' x :
  Forall2 R l l' -> In x l -> exists y, In y l' /\ R x y.
Proof.
  induction 1 as [|a b l l' Hab _ IH]; simpl; [tauto|].
  intros [<-|Hin]; [eauto|]. destruct (IH Hin) as (y & Hy & Hxy). eauto.
Qed.

Lemma Forall2_In_r {A B : Type} (R : A -> B -> Prop) l l' y :
  Forall2 R l l' -> In y l' -> exists x, In x l /\ R x y.
Proof.
  induction 1 as [|a b l l' Hab _ IH]; simpl; [tauto|].
  intros [<-|Hin]; [eauto|]. destruct (IH Hin) as (x & Hx & Hxy). eauto.
Qed.

Lemma attendee_rows_In db e a :
  In a (attendee_rows db e) <-> In a (join_attendees db e).
Proof.
  unfold attendee_rows. split; intros H.
  - exact (Permutation_in _ (order_by_perm _ _) H).
  - exact (Permutation_in _ (Permutation_sym (order_by_perm _ _)) H).
Qed.

Lemma attendee_rows_length db e :
  consistent db ->
  List.length (attendee_rows db e)
  = List.length (filter (fun r => (RSVP.event_id r =? e)%Z) (rsvps db)).
Proof.
  intros Hc. unfold attendee_rows. rewrite order_by_length. symmetry.
  eapply Forall2_length. now apply join_attendees_rows.
Qed.

Lemma event_attendees_ok db e l :
  event_attendees db e = Ok l <-> int64_ok e = true /\ l = attendee_rows db e.
Proof.
  unfold event_attendees. destruct (int64_ok e); split.
  - intros [= <-]. auto.
  - intros [_ ->]. reflexivity.
  - discriminate.
  - intros [H _]. discriminate.
Qed.

Lemma rsvp_in_range db e em resp notes now db' r :
  rsvp db e em resp notes now = Ok (db', r) -> int64_ok e = true.
Proof.
  unfold rsvp. destruct (select_member_id db em); [|discriminate].
  destruct (int64_ok e); [reflexivity|discriminate].
Qed.

Lemma filter_In_length {A : Type} (p : A -> bool) l x :
  In x l -> p x = true -> (1 <= List.length (filter p l))%nat.
Proof.
  induction l as [|y l IH]; simpl; [tauto|].
  intros [->|Hin] Hp.
  - rewrite Hp. simpl. lia.
  - destruct (p y); simpl; [lia|auto].
Qed.

Lemma pair_unique_tail r rs : pair_unique (r :: rs) -> pair_unique rs.
Proof.
  intros H e i. specialize (H e i). simpl in H.
  destruct (same_pair e i r); simpl in H; lia.
Qed.

(** One row per pair means: among the rows of one event, no member twice. *)
Lemma pair_unique_members rs e :
  pair_unique rs ->
  NoDup (map RSVP.member_id (filter (fun r => (RSVP.event_id r =? e)%Z) rs)).
Proof.
  induction rs as [|r rs IH]; simpl; intros Hu; [constructor|].
  pose proof (IH (pair_unique_tail _ _ Hu)) as Hnd.
  destruct (Z.eqb_spec (RSVP.event_id r) e) as [He|He]; [|exact Hnd].
  simpl. constructor; [|exact Hnd].
  intros Hin. apply in_map_iff in Hin. destruct Hin as (r' & Hm & Hr').
  apply filter_In in Hr'. destruct Hr' as [Hr' He'].
  apply Z.eqb_eq in He'.
  specialize (Hu e (RSVP.member_id r)). simpl in Hu.
  replace (same_pair e (RSVP.member_id r) r) with true in Hu.
  - assert (1 <= List.length (filter (same_pair e (RSVP.member_id r)) rs))%nat.
    { apply (filter_In_length _ _ r' Hr'). now apply same_pair_true. }
    simpl in Hu. lia.
  - symmetry. now apply same_pair_true.
Qed.

End AttendeeRows.

(** X10. In a reachable store [event_attendees] returns the empty list
    exactly when the event id is a signed 64-bit integer that no RSVP row
    carries (so such an id of no existing event gives an empty list, not an
    error), and it raises the overflow error exactly when the id is outside
    that range. *)
Theorem X10_no_rsvps_no_attendees :
  forall db event_id,
    reachable db ->
    (CommunityOrganizer.event_attendees db event_id = Ok [] <->
     INT64_MIN <= event_id <= INT64_MAX /\
     (forall r, In r (rsvps db) -> RSVP.event_id r <> event_id)) /\
    (CommunityOrganizer.event_attendees db event_id = Err overflow <->
     event_id < INT64_MIN \/ INT64_MAX < event_id).
Proof.
  intros db event_id Hr.
  pose proof (attendee_rows_length db event_id (reachable_consistent _ Hr)) as Hl.
  rewrite <- int64_ok_true, <- int64_ok_false. split.
  - rewrite event_attendees_ok. split.
    + intros [HE He]. split; [exact HE|]. intros r Hin Hev.
      rewrite <- He in Hl. simpl in Hl.
      assert (1 <= List.length
                     (filter (fun r => (RSVP.event_id r =? event_id)%Z) (rsvps db)))%nat.
      { apply (filter_In_length _ _ r Hin). now apply Z.eqb_eq. }
      lia.
    + intros [HE Hno]. split; [exact HE|]. symmetry.
      apply length_zero_iff_nil. rewrite Hl.
      rewrite filter_none; [reflexivity|].
      rewrite Forall_forall. intros r Hin. apply Z.eqb_neq. now apply Hno.
  - unfold CommunityOrganizer.event_attendees.
    destruct (int64_ok event_id); split; try discriminate; reflexivity.
Qed.

(** A run of X10: event 2 has no RSVP, and 2^63 is no id at all. *)
Lemma X10_no_rsvps_no_attendees_witness :
  let db := run [AddMember "A" "a@x.com" "member" "2025-01-01T09:00:00";
                 Rsvp 1 "a@x.com" "maybe" "" "2025-01-03T09:00:00"] in
  CommunityOrganizer.event_attendees db 2 = Ok [] /\
  CommunityOrganizer.event_attendees db (2 ^ 63) = Err overflow.
Proof.
  intros db. split.
  - apply (X10_no_rsvps_no_attendees db 2 (reachable_run _)). split.
    + unfold INT64_MIN, INT64_MAX. lia.
    + simpl. intros r [<-|[]]. simpl. discriminate.
  - apply (X10_no_rsvps_no_attendees db (2 ^ 63) (reachable_run _)).
    right. unfold INT64_MAX. reflexivity.
Defined.

(** X11. In a reachable store, after a member has answered for an event,
    [event_attendees] of that event returns a list that has the entry with
    the member's name and email, the response and the timestamp of that
    call, and no other entry with the member's email. *)
Theorem X11_rsvp_shows_in_attendees :
  forall db event_id m response notes now db' r,
    reachable db ->
    In m (members db) ->
    CommunityOrganizer.rsvp db event_id (Member.email m) response notes now
      = Ok (db', r) ->
    let entry := mkAttendee (Member.name m) (Member.email m) response now in
    exists attendees,
      CommunityOrganizer.event_attendees db' event_id = Ok attendees /\
      In entry attendees /\
      (forall a, In a attendees -> a_email a = Member.email m -> a = entry).
Proof.
  intros db event_id m response notes now db' r Hr Hin H entry.
  exists (CommunityOrganizer.attendee_rows db' event_id).
  split.
  { apply event_attendees_ok. split; [|reflexivity].
    eapply rsvp_in_range; eauto. }
  pose proof (reachable_consistent _ Hr) as Hc.
  assert (Hr' : reachable db').
  { rewrite <- (rsvp_apply_op _ _ _ _ _ _ _ _ H). now constructor. }
  pose proof (reachable_consistent _ Hr') as Hc'.
  pose proof (join_attendees_rows db' event_id Hc') as HJ.
  destruct (rsvp_inv _ _ _ _ _ _ _ _ H) as (Hs & Hrow & Hrs & Hms & _).
  rewrite (select_member_id_unique db m (cons_emails _ Hc) Hin) in Hs.
  injection Hs as Hid.
  destruct (rsvp_pair_rows _ _ _ _ _ _ _ _ H) as (Hev & _ & Hpair).
  assert (Hentry : forall r' a, annotates db' r' a -> r' = r -> a = entry).
  { intros r' [an ae ar at'] (H1 & H2 & m' & Hm' & Hid' & H3 & H4) ->.
    simpl in *. rewrite Hms in Hm'.
    assert (m' = m).
    { apply (NoDup_map_inj Member.id _ _ _ (cons_ids _ Hc) Hm' Hin). congruence. }
    subst m'. unfold entry. rewrite Hrow in H1, H2. simpl in H1, H2. congruence. }
  split.
  - apply attendee_rows_In.
    assert (Hrin : In r (filter (fun x => (RSVP.event_id x =? event_id)%Z)
                            (rsvps db'))).
    { apply filter_In. split; [|now apply Z.eqb_eq].
      rewrite Hrs. apply in_or_app. right. now left. }
    destruct (Forall2_In_l _ _ _ _ HJ Hrin) as (a & Ha & Hann).
    now rewrite <- (Hentry r a Hann eq_refl).
  - intros a Ha Hmail. apply attendee_rows_In in Ha.
    destruct (Forall2_In_r _ _ _ _ HJ Ha) as (r' & Hr'in & Hann).
    apply (Hentry r' a Hann).
    destruct Hann as (_ & _ & m' & Hm' & Hid' & _ & Hem).
    rewrite Hms in Hm'.
    assert (m' = m).
    { apply (NoDup_map_inj Member.email _ _ _ (cons_emails _ Hc) Hm' Hin).
      congruence. }
    subst m'. apply filter_In in Hr'in. destruct Hr'in as [Hr'in He'].
    apply Z.eqb_eq in He'.
    assert (Hp : In r' (filter (CommunityOrganizer.same_pair event_id
                                  (RSVP.member_id r)) (rsvps db'))).
    { apply filter_In. split; [exact Hr'in|]. apply same_pair_true.
      split; [exact He'|congruence]. }
    rewrite Hpair in Hp. destruct Hp as [Hp|[]]. now symmetry.
Qed.

(** A run of X11: member 1 changes "maybe" into "declined". *)
Lemma X11_rsvp_shows_in_attendees_witness :
  let db := run [AddMember "A" "a@x.com" "member" "2025-01-01T09:00:00";
                 AddMember "B" "b@x.com" "member" "2025-01-01T10:00:00";
                 Rsvp 1 "a@x.com" "maybe" "" "2025-01-03T09:00:00";
                 Rsvp 1 "b@x.com" "attending" "" "2025-01-03T10:00:00"] in
  let db' := apply_op db (Rsvp 1 "a@x.com" "declined" "" "2025-01-04T09:00:00") in
  CommunityOrganizer.event_attendees db' 1
  = Ok [mkAttendee "B" "b@x.com" "attending" "2025-01-03T10:00:00";
        mkAttendee "A" "a@x.com" "declined" "2025-01-04T09:00:00"] /\
  exists attendees,
    CommunityOrganizer.event_attendees db' 1 = Ok attendees /\
    In (mkAttendee "A" "a@x.com" "declined" "2025-01-04T09:00:00") attendees.
Proof.
  intros db db'. split; [reflexivity|].
  destruct (X11_rsvp_shows_in_attendees db 1
              (Member.mk 1 "A" "a@x.com" "member" "2025-01-01T09:00:00" 1)
              "declined" "" "2025-01-04T09:00:00" db'
              (RSVP.mk 3 1 1 "declined" "2025-01-04T09:00:00" ""))
    as (attendees & Ha & Hin & _).
  - apply reachable_run.
  - simpl. left. reflexivity.
  - reflexivity.
  - exists attendees. split; [exact Ha|exact Hin].
Defined.

(** X12. In a reachable store [event_attendees] never returns more entries
    than there are members: each member has at most one RSVP per event. *)
Theorem X12_attendees_bounded_by_members :
  forall db event_id attendees,
    reachable db ->
    CommunityOrganizer.event_attendees db event_id = Ok attendees ->
    (List.length attendees <= List.length (members db))%nat.
Proof.
  intros db event_id attendees Hr Ha.
  apply event_attendees_ok in Ha. destruct Ha as [_ ->].
  pose proof (reachable_consistent _ Hr) as Hc.
  rewrite (attendee_rows_length db event_id Hc).
  rewrite <- (length_map RSVP.member_id), <- (length_map Member.id (members db)).
  apply NoDup_incl_length.
  - apply pair_unique_members. now apply reachable_pair_unique.
  - intros i Hi. apply in_map_iff in Hi. destruct Hi as (r & <- & Hin).
    apply filter_In in Hin. destruct Hin as [Hin _].
    pose proof (cons_refs _ Hc) as Hf. rewrite Forall_forall in Hf. now apply Hf.
Qed.

(** A run of X12: five answers of two members for event 1. *)
Lemma X12_attendees_bounded_by_members_witness :
  let db := run [AddMember "A" "a@x.com" "member" "2025-01-01T09:00:00";
                 AddMember "B" "b@x.com" "member" "2025-01-01T10:00:00";
                 Rsvp 1 "a@x.com" "maybe" "" "2025-01-03T09:00:00";
                 Rsvp 1 "b@x.com" "attending" "" "2025-01-03T10:00:00";
                 Rsvp 1 "a@x.com" "declined" "" "2025-01-03T11:00:00";
                 Rsvp 1 "a@x.com" "attending" "" "2025-01-03T12:00:00";
                 Rsvp 1 "b@x.com" "maybe" "" "2025-01-03T13:00:00"] in
  exists attendees,
    CommunityOrganizer.event_attendees db 1 = Ok attendees /\
    (List.length attendees <= 2)%nat.
Proof.
  intros db. eexists. split; [reflexivity|].
  apply (X12_attendees_bounded_by_members db 1 _ (reachable_run _)). reflexivity.
Defined.

(** ** How the statistics move *)

Section StatsMove.
Import CommunityOrganizer.

Lemma count_app {A : Type} (p : A -> bool) l l' :
  count p (l ++ l') = count p l + count p l'.
Proof. unfold count. rewrite filter_app, length_app. lia. Qed.

Lemma count_filter_split {A : Type} (p q : A -> bool) l :
  count p (filter (fun x => negb (q x)) l) + count p (filter q l) = count p l.
Proof.
  assert (H : (List.length (filter p (filter (fun x => negb (q x)) l))
               + List.length (filter p (filter q l))
               = List.length (filter p l))%nat).
  { induction l as [|x l IH]; simpl; [reflexivity|].
    destruct (q x); simpl; destruct (p x); simpl; lia. }
  unfold count. lia.
Qed.

End StatsMove.

(** X13. A successful registration raises the active-member count of
    [status] by one and a created event raises the event count by one; each
    leaves the other two counts as they were. *)
Theorem X13_status_after_insert :
  forall path db db',
    (forall name email role now m,
        CommunityOrganizer.add_member db name email role now = Ok (db', m) ->
        active_members (CommunityOrganizer.status path db')
        = active_members (CommunityOrganizer.status path db) + 1 /\
        total_events (CommunityOrganizer.status path db')
        = total_events (CommunityOrganizer.status path db) /\
        confirmed_rsvps (CommunityOrganizer.status path db')
        = confirmed_rsvps (CommunityOrganizer.status path db)) /\
    (forall title event_date location description capacity organizer_email now e,
        CommunityOrganizer.create_event db title event_date location description
          capacity organizer_email now = Ok (db', e) ->
        active_members (CommunityOrganizer.status path db')
        = active_members (CommunityOrganizer.status path db) /\
        total_events (CommunityOrganizer.status path db')
        = total_events (CommunityOrganizer.status path db) + 1 /\
        confirmed_rsvps (CommunityOrganizer.status path db')
        = confirmed_rsvps (CommunityOrganizer.status path db)).
Proof.
  intros path db db'. split.
  - intros name email role now m. unfold CommunityOrganizer.add_member.
    destruct (existsb _ _); [discriminate|]. intros [= <- _]. simpl.
    rewrite count_app. repeat split.
  - intros title event_date location description capacity organizer_email now e.
    unfold CommunityOrganizer.create_event.
    destruct (int64_ok capacity); [|discriminate]. intros [= <- _]. simpl.
    rewrite length_app. simpl. repeat split. lia.
Qed.

(** A run of X13. *)
Lemma X13_status_after_insert_witness :
  let db := run [AddMember "A" "a@x.com" "member" "2025-01-01T09:00:00"] in
  let db1 := apply_op db (AddMember "B" "b@x.com" "member" "2025-01-02T09:00:00") in
  let db2 := apply_op db (CreateEvent "Meetup" "2025-06-01" "TBD" "" 50 None
                                      "2025-01-02T09:00:00") in
  active_members (CommunityOrganizer.status "db" db1) = 2 /\
  total_events (CommunityOrganizer.status "db" db2) = 1.
Proof.
  intros db db1 db2.
  destruct (X13_status_after_insert "db" db db1) as (H1 & _).
  destruct (X13_status_after_insert "db" db db2) as (_ & H2).
  split.
  - apply (H1 "B" "b@x.com" "member" "2025-01-02T09:00:00"
              (Member.mk 2 "B" "b@x.com" "member" "2025-01-02T09:00:00" 1)).
    reflexivity.
  - apply (H2 "Meetup" "2025-06-01" "TBD" "" 50 None "2025-01-02T09:00:00"
              (Event.mk 1 "Meetup" "" "TBD" "2025-06-01" 50 None
                        "2025-01-02T09:00:00" "upcoming")).
    reflexivity.
Defined.

(** X14. A recorded RSVP changes the confirmed-RSVP count of [status] by
    what the new row adds (one if its response is "attending") minus what
    the replaced rows of the pair counted; the other two counts stay.  In
    particular an answer other than "attending" never raises the count. *)
Theorem X14_status_after_rsvp :
  forall path db event_id member_email response notes now db' r,
    CommunityOrganizer.rsvp db event_id member_email response notes now
      = Ok (db', r) ->
    let replaced :=
      filter (CommunityOrganizer.same_pair event_id (RSVP.member_id r)) (rsvps db) in
    confirmed_rsvps (CommunityOrganizer.status path db')
    = confirmed_rsvps (CommunityOrganizer.status path db)
      - CommunityOrganizer.count (fun x => RSVP.response x =? "attending") replaced
      + (if response =? "attending" then 1 else 0) /\
    active_members (CommunityOrganizer.status path db')
    = active_members (CommunityOrganizer.status path db) /\
    total_events (CommunityOrganizer.status path db')
    = total_events (CommunityOrganizer.status path db) /\
    (response <> "attending" ->
     confirmed_rsvps (CommunityOrganizer.status path db')
     <= confirmed_rsvps (CommunityOrganizer.status path db)).
Proof.
  intros path db event_id member_email response notes now db' r H replaced.
  destruct (rsvp_inv _ _ _ _ _ _ _ _ H) as (_ & Hrow & Hrs & Hms & Hes & _).
  pose proof (count_filter_split (fun x => RSVP.response x =? "attending")
                (CommunityOrganizer.same_pair event_id (RSVP.member_id r))
                (rsvps db)) as Hsplit.
  fold replaced in Hsplit.
  assert (Hnew : CommunityOrganizer.count (fun x => RSVP.response x =? "attending") [r]
                 = if response =? "attending" then 1 else 0).
  { rewrite Hrow. unfold CommunityOrganizer.count. simpl.
    destruct (response =? "attending"); reflexivity. }
  assert (Hpos : 0 <= CommunityOrganizer.count
                        (fun x => RSVP.response x =? "attending") replaced).
  { unfold CommunityOrganizer.count. lia. }
  unfold CommunityOrganizer.status. simpl. rewrite Hrs, Hms, Hes, count_app, Hnew.
  split; [lia|]. split; [reflexivity|]. split; [reflexivity|].
  intros Hne. apply String.eqb_neq in Hne. rewrite Hne. lia.
Qed.

(** A run of X14: "attending" becomes "declined" and the count drops from
    one to zero. *)
Lemma X14_status_after_rsvp_witness :
  let db := run [AddMember "A" "a@x.com" "member" "2025-01-01T09:00:00";
                 Rsvp 1 "a@x.com" "attending" "" "2025-01-03T09:00:00"] in
  let db' := apply_op db (Rsvp 1 "a@x.com" "declined" "" "2025-01-04T09:00:00") in
  confirmed_rsvps (CommunityOrganizer.status "db" db) = 1 /\
  confirmed_rsvps (CommunityOrganizer.status "db" db') = 1 - 1 + 0.
Proof.
  intros db db'. split; [reflexivity|].
  apply (X14_status_after_rsvp "db" db 1 "a@x.com" "declined" ""
           "2025-01-04T09:00:00" db'
           (RSVP.mk 2 1 1 "declined" "2025-01-04T09:00:00" "")).
  reflexivity.
Defined.

(** X20. A created event is listed from then on: the unfiltered listing
    after [create_event] is the listing before plus the new event, which
    also appears under the filter "upcoming", whatever its date. *)
Theorem X20_created_event_is_listed :
  forall db title event_date location description capacity organizer_email now db' e,
    CommunityOrganizer.create_event db title event_date location description
      capacity organizer_email now = Ok (db', e) ->
    Permutation (CommunityOrganizer.list_events db' None)
                (e :: CommunityOrganizer.list_events db None) /\
    In e (CommunityOrganizer.list_events db' (Some "upcoming")) /\
    Event.title e = title /\ Event.event_date e = event_date /\
    Event.location e = location /\ Event.description e = description /\
    Event.capacity e = capacity /\ Event.created_at e = now.
Proof.
  intros db title event_date location description capacity organizer_email now db' e.
  unfold CommunityOrganizer.create_event.
  destruct (int64_ok capacity); [|discriminate]. intros [= <- <-].
  unfold CommunityOrganizer.list_events. simpl. split; [|split; [|repeat split]].
  - rewrite !order_by_perm. rewrite Permutation_app_comm. reflexivity.
  - apply (Permutation_in _ (Permutation_sym (order_by_perm _ _))).
    apply filter_In. split; [|reflexivity]. apply in_or_app. right. now left.
Qed.

(** A run of X20: the event dated earliest is listed first. *)
Lemma X20_created_event_is_listed_witness :
  let db := run [CreateEvent "Meetup" "2025-06-01" "TBD" "" 50 None
                             "2025-01-02T09:00:00"] in
  let e := Event.mk 2 "Picnic" "" "Park" "2025-05-01" 20 None
                    "2025-01-02T10:00:00" "upcoming" in
  let db' := apply_op db (CreateEvent "Picnic" "2025-05-01" "Park" "" 20 None
                                      "2025-01-02T10:00:00") in
  map Event.id (CommunityOrganizer.list_events db' None) = [2; 1] /\
  In e (CommunityOrganizer.list_events db' (Some "upcoming")).
Proof.
  intros db e db'. split; [reflexivity|].
  apply (X20_created_event_is_listed db "Picnic" "2025-05-01" "Park" "" 20 None
           "2025-01-02T10:00:00" db' e).
  reflexivity.
Defined.

(** * Properties of the command interface *)

Section CommandInterface.
Variable json_dumps : value -> string.
Variable help_text : string.
Variable path : string.

(** The store after an invocation: the three writing commands call their
    method, with an empty description and empty notes; every other command
    leaves the store as it is. *)
Lemma cli_step_store db a now :
  cli_step json_dumps help_text path db (a, now)
  = match a with
    | ArgsAddMember name email role => apply_op db (AddMember name email role now)
    | ArgsAddEvent title date location capacity organizer =>
        apply_op db (CreateEvent title date location "" capacity organizer now)
    | ArgsRsvp event_id email response =>
        apply_op db (Rsvp event_id email (response_str response) "" now)
    | _ => db
    end.
Proof.
  unfold cli_step, main. cbn [fst snd].
  destruct a as [| | |[|] st|name email role|title date location capacity organizer
                 |event_id email response|event_id]; try reflexivity.
  - unfold apply_op.
    destruct (CommunityOrganizer.add_member _ _ _ _ _) as [[db' m]|]; reflexivity.
  - unfold apply_op.
    destruct (CommunityOrganizer.create_event _ _ _ _ _ _ _ _) as [[db' e]|];
      reflexivity.
  - unfold apply_op.
    destruct (CommunityOrganizer.rsvp _ _ _ _ _ _) as [[db' r]|]; reflexivity.
  - destruct (CommunityOrganizer.event_attendees _ _); reflexivity.
Qed.

Lemma cli_step_rows db inv :
  reachable db /\ cli_rows db ->
  reachable (cli_step json_dumps help_text path db inv) /\
  cli_rows (cli_step json_dumps help_text path db inv).
Proof.
  destruct inv as [a now]. intros [Hr [He Hn]]. rewrite cli_step_store.
  destruct a as [| | |tgt st|name email role|title date location capacity organizer
                 |event_id email response|event_id]; try (split; [exact Hr|now split]).
  - split; [now constructor|]. unfold apply_op, CommunityOrganizer.add_member.
    destruct (existsb _ _); simpl; now split.
  - split; [now constructor|]. unfold apply_op, CommunityOrganizer.create_event.
    destruct (int64_ok capacity); simpl; [|now split].
    split; simpl; [|exact Hn]. apply Forall_app. split; [exact He|].
    now repeat constructor.
  - split; [now constructor|]. unfold apply_op, CommunityOrganizer.rsvp.
    destruct (CommunityOrganizer.select_member_id _ _); simpl; [|now split].
    destruct (int64_ok event_id); simpl; [|now split].
    split; simpl; [exact He|]. apply Forall_app. split.
    + rewrite Forall_forall in *. intros r Hin. apply filter_In in Hin.
      now apply Hn.
    + constructor; [|constructor]. simpl. split; [reflexivity|].
      destruct response; simpl; auto.
Qed.

Lemma cli_run_rows invs :
  forall db, reachable db /\ cli_rows db ->
             reachable (fold_left (cli_step json_dumps help_text path) invs db) /\
             cli_rows (fold_left (cli_step json_dumps help_text path) invs db).
Proof.
  induction invs as [|inv invs IH]; simpl; intros db H; [exact H|].
  apply IH. now apply cli_step_rows.
Qed.

(** X17. Whatever sequence of invocations of the program built the store,
    it is a store the methods can build, every event has an empty
    description, and every RSVP has empty notes and one of the responses
    "attending", "maybe", "declined". *)
Theorem X17_cli_stores :
  forall invs,
    let db := cli_run json_dumps help_text path invs in
    reachable db /\
    (forall e, In e (events db) -> Event.description e = "") /\
    (forall r, In r (rsvps db) ->
               RSVP.notes r = "" /\
               (RSVP.response r = "attending" \/ RSVP.response r = "maybe" \/
                RSVP.response r = "declined")).
Proof.
  intros invs db.
  destruct (cli_run_rows invs empty_db) as (Hr & He & Hn).
  { split; [constructor|]. split; constructor. }
  split; [exact Hr|]. split.
  - intros e. rewrite Forall_forall in He. apply He.
  - intros r. rewrite Forall_forall in Hn. apply Hn.
Qed.

(** X18. The invocations that end in an exception, which [main] does not
    catch: [add-member] with an email some member row has (the integrity
    error of the UNIQUE constraint); [rsvp] with an email no member row has
    (the value error that quotes the email); and an integer outside the
    signed 64-bit range (the overflow error) as the event id of [rsvp] for
    a registered email, as the capacity of [add-event], or as the event id
    of [attendees].  Every other invocation prints its output. *)
Theorem X18_cli_failures :
  forall db a now e,
    main json_dumps help_text path db a now = Err e <->
    (exists name email role,
        a = ArgsAddMember name email role /\
        (exists m, In m (members db) /\ Member.email m = email) /\
        e = IntegrityError "UNIQUE constraint failed: members.email") \/
    (exists event_id email response,
        a = ArgsRsvp event_id email response /\
        (forall m, In m (members db) -> Member.email m <> email) /\
        e = ValueError ("Member '" ++ email ++ "' not found")) \/
    (exists event_id email response,
        a = ArgsRsvp event_id email response /\
        (exists m, In m (members db) /\ Member.email m = email) /\
        (event_id < INT64_MIN \/ INT64_MAX < event_id) /\
        e = overflow) \/
    (exists title date location capacity organizer,
        a = ArgsAddEvent title date location capacity organizer /\
        (capacity < INT64_MIN \/ INT64_MAX < capacity) /\
        e = overflow) \/
    (exists event_id,
        a = ArgsAttendees event_id /\
        (event_id < INT64_MIN \/ INT64_MAX < event_id) /\
        e = overflow).
Proof.
  intros db a now e. unfold main. split.
  - destruct a as [| | |[|] st|name email role|title date location capacity organizer
                   |event_id email response|event_id]; try discriminate.
    + unfold CommunityOrganizer.add_member.
      destruct (existsb _ _) eqn:Hex; [|discriminate].
      intros [= <-]. left. exists name, email, role.
      split; [reflexivity|]. split; [|reflexivity].
      apply existsb_exists in Hex. destruct Hex as (m & Hin & He).
      apply String.eqb_eq in He. eauto.
    + unfold CommunityOrganizer.create_event.
      destruct (int64_ok capacity) eqn:HC; [discriminate|].
      intros [= <-]. do 3 right. left.
      exists title, date, location, capacity, organizer.
      split; [reflexivity|]. split; [now apply int64_ok_false|reflexivity].
    + unfold CommunityOrganizer.rsvp.
      destruct (CommunityOrganizer.select_member_id db email) eqn:Hs.
      * destruct (int64_ok event_id) eqn:HE; [discriminate|].
        intros [= <-]. do 2 right. left. exists event_id, email, response.
        split; [reflexivity|].
        apply select_member_id_in in Hs. destruct Hs as (m & Hin & He & _).
        split; [eauto|]. split; [now apply int64_ok_false|reflexivity].
      * intros [= <-]. right. left. exists event_id, email, response.
        split; [reflexivity|]. split; [|reflexivity].
        intros m Hin He. unfold CommunityOrganizer.select_member_id in Hs.
        destruct (find _ _) eqn:Hf; [discriminate|].
        apply (find_none _ _ Hf) in Hin. apply String.eqb_neq in Hin. contradiction.
    + unfold CommunityOrganizer.event_attendees.
      destruct (int64_ok event_id) eqn:HE; [discriminate|].
      intros [= <-]. do 4 right. exists event_id.
      split; [reflexivity|]. split; [now apply int64_ok_false|reflexivity].
  - intros [(name & email & role & -> & (m & Hin & He) & ->)
           |[(event_id & email & response & -> & Hno & ->)
            |[(event_id & email & response & -> & (m & Hin & He) & HE & ->)
             |[(title & date & location & capacity & organizer & -> & HC & ->)
              |(event_id & -> & HE & ->)]]]].
    + unfold CommunityOrganizer.add_member.
      replace (existsb _ _) with true; [reflexivity|].
      symmetry. apply existsb_exists. exists m. split; [exact Hin|].
      now apply String.eqb_eq.
    + unfold CommunityOrganizer.rsvp.
      now rewrite (select_member_id_none _ _ Hno).
    + unfold CommunityOrganizer.rsvp. apply int64_ok_false in HE.
      destruct (CommunityOrganizer.select_member_id db email) eqn:Hs.
      * now rewrite HE.
      * exfalso. unfold CommunityOrganizer.select_member_id in Hs.
        destruct (find _ _) eqn:Hf; [discriminate|].
        apply (find_none _ _ Hf) in Hin. apply String.eqb_neq in Hin. contradiction.
    + unfold CommunityOrganizer.create_event. apply int64_ok_false in HC.
      now rewrite HC.
    + unfold CommunityOrganizer.event_attendees. apply int64_ok_false in HE.
      now rewrite HE.
Qed.

End CommandInterface.

(** ** What the command interface prints *)

Section Printing.
Import CommunityOrganizer.

Lemma add_member_row db name email role now db' m :
  add_member db name email role now = Ok (db', m) ->
  m = Member.mk (next_rowid (seq_members db) (map Member.id (members db)))
                name email role now 1.
Proof.
  unfold add_member. destruct (existsb _ _); [discriminate|]. now intros [= _ <-].
Qed.

Lemma add_member_next_id db name email role now db' m :
  reachable db ->
  add_member db name email role now = Ok (db', m) ->
  Member.id m = Z.of_nat (List.length (members db)) + 1.
Proof.
  intros Hr H. destruct (reachable_ids db Hr) as [[Hsm Hm] _].
  rewrite (add_member_row _ _ _ _ _ _ _ H). simpl.
  rewrite Hsm, Hm. apply next_rowid_upto.
Qed.

End Printing.

(** X16. [_status_color] gives no colour to a status outside its four
    keys; the events of a reachable store are all "upcoming" and so are
    all printed in cyan. *)
Theorem X16_status_colors :
  (forall s, s <> "upcoming" -> s <> "active" -> s <> "cancelled" ->
             s <> "completed" -> _status_color s = NC) /\
  (forall db e, reachable db -> In e (events db) ->
                _status_color (Event.status e) = CYAN).
Proof.
  split.
  - intros s H1 H2 H3 H4. unfold _status_color, get_default.
    apply String.eqb_neq in H1, H2, H3, H4. now rewrite H1, H2, H3, H4.
  - intros db e Hr Hin. pose proof (reachable_events db Hr) as He.
    rewrite Forall_forall in He. destruct (He e Hin) as [-> _]. reflexivity.
Qed.

(** Instances of X16. *)
Lemma X16_status_colors_witness :
  _status_color "postponed" = NC /\
  (let db := run [CreateEvent "Meetup" "2025-06-01" "TBD" "" 50 None
                              "2025-01-02T09:00:00"] in
   forall e, In e (events db) -> _status_color (Event.status e) = CYAN).
Proof.
  destruct X16_status_colors as [H1 H2]. split.
  - apply H1; discriminate.
  - intros db e. apply (H2 db e). apply reachable_run.
Defined.

(** X19. On a reachable store with n members, [add-member] with an email
    no member row has registers the member and prints one line, the
    confirmation with the member's name and the id n + 1. *)
Theorem X19_add_member_prints_next_id :
  forall json_dumps help_text path db name email role now,
    reachable db ->
    (forall m, In m (members db) -> Member.email m <> email) ->
    main json_dumps help_text path db (ArgsAddMember name email role) now
    = Ok (apply_op db (AddMember name email role now),
          [GREEN ++ "✓" ++ NC ++ " Member " ++ BOLD ++ name ++ NC
                 ++ " registered (id="
                 ++ str_int (Z.of_nat (List.length (members db)) + 1) ++ ")"]).
Proof.
  intros json_dumps help_text path db name email role now Hr Hno.
  destruct (add_member_ok db name email role now Hno) as (db' & m & H).
  pose proof (add_member_next_id _ _ _ _ _ _ _ Hr H) as Hid.
  pose proof (add_member_row _ _ _ _ _ _ _ H) as Hrow.
  assert (Hname : Member.name m = name) by (rewrite Hrow; reflexivity).
  unfold main, apply_op. rewrite H. unfold commit.
  now rewrite Hid, Hname.
Qed.

(** A run of X19: the second member is confirmed with id 2. *)
Lemma X19_add_member_prints_next_id_witness :
  let db := run [AddMember "A" "a@x.com" "member" "2025-01-01T09:00:00"] in
  exists db',
    main (fun _ => "") "" "db" db (ArgsAddMember "B" "b@x.com" "member")
         "2025-01-02T09:00:00"
    = Ok (db', [GREEN ++ "✓" ++ NC ++ " Member " ++ BOLD ++ "B" ++ NC
                      ++ " registered (id=2)"]).
Proof.
  intros db. eexists.
  apply (X19_add_member_prints_next_id (fun _ => "") "" "db" db
           "B" "b@x.com" "member" "2025-01-02T09:00:00").
  - apply reachable_run.
  - simpl. intros m [<-|[]]. simpl. discriminate.
Defined.

(** X21. On a reachable store the reading commands show whole tables and
    leave the store as it is.  [list members] prints a header with the
    number of member rows and then one line per member row in table order,
    or the line "none" when there is no member.  [attendees], for an event
    id that is a signed 64-bit integer, prints a header with the event id
    and the number of RSVP rows of the event, and then, in ascending order
    of the RSVP timestamp, one line per RSVP row of the event, made of the
    member's name and email and the response. *)
Theorem X21_listings_show_all_rows :
  forall json_dumps help_text path db status event_id now,
    reachable db ->
    INT64_MIN <= event_id <= INT64_MAX ->
    main json_dumps help_text path db (ArgsList TargetMembers status) now
    = Ok (db,
          (LF ++ BOLD ++ BLUE ++ "Members ("
              ++ str_int (Z.of_nat (List.length (members db))) ++ ")" ++ NC)
          :: or_none (map _fmt_member (members db))) /\
    let rows := filter (fun r => (RSVP.event_id r =? event_id)%Z) (rsvps db) in
    exists l l',
      main json_dumps help_text path db (ArgsAttendees event_id) now
      = Ok (db,
            (LF ++ BOLD ++ BLUE ++ "Attendees for event " ++ str_int event_id
                ++ " (" ++ str_int (Z.of_nat (List.length rows)) ++ ")" ++ NC)
            :: map fmt_attendee l) /\
      Permutation l l' /\ Forall2 (annotates db) rows l' /\
      ascending a_rsvp_at l.
Proof.
  intros json_dumps help_text path db status event_id now Hr HE.
  apply int64_ok_true in HE.
  pose proof (reachable_consistent _ Hr) as Hc. split.
  - unfold main, CommunityOrganizer.list_members.
    rewrite filter_all; [reflexivity|].
    eapply Forall_impl; [|exact (cons_active _ Hc)]. intros m. apply Z.eqb_eq.
  - intros rows.
    exists (CommunityOrganizer.attendee_rows db event_id),
           (CommunityOrganizer.join_attendees db event_id).
    split; [|split; [|split]].
    + unfold main, CommunityOrganizer.event_attendees. rewrite HE.
      now rewrite (attendee_rows_length db event_id Hc).
    + apply order_by_perm.
    + now apply join_attendees_rows.
    + apply order_by_ascending.
Qed.

(** A run of X21: two members, one of whom answered for event 1. *)
Lemma X21_listings_show_all_rows_witness :
  let db := run [AddMember "A" "a@x.com" "member" "2025-01-01T09:00:00";
                 AddMember "B" "b@x.com" "admin" "2025-01-01T10:00:00";
                 Rsvp 1 "b@x.com" "maybe" "" "2025-01-03T09:00:00"] in
  main (fun _ => "") "" "db" db (ArgsList TargetMembers None) "2025-01-04T09:00:00"
  = Ok (db,
        [LF ++ BOLD ++ BLUE ++ "Members (2)" ++ NC;
         "  " ++ CYAN ++ "[1]" ++ NC ++ " " ++ BOLD ++ "A" ++ NC
              ++ "  a@x.com  role=" ++ YELLOW ++ "member" ++ NC;
         "  " ++ CYAN ++ "[2]" ++ NC ++ " " ++ BOLD ++ "B" ++ NC
              ++ "  b@x.com  role=" ++ YELLOW ++ "admin" ++ NC]) /\
  main (fun _ => "") "" "db" db (ArgsAttendees 1) "2025-01-04T09:00:00"
  = Ok (db,
        [LF ++ BOLD ++ BLUE ++ "Attendees for event 1 (1)" ++ NC;
         "  " ++ BOLD ++ "B" ++ NC ++ "  b@x.com  [" ++ YELLOW ++ "maybe" ++ NC
              ++ "]"]) /\
  exists l,
    main (fun _ => "") "" "db" db (ArgsAttendees 1) "2025-01-04T09:00:00"
    = Ok (db, (LF ++ BOLD ++ BLUE ++ "Attendees for event 1 (1)" ++ NC)
              :: map fmt_attendee l) /\
    ascending a_rsvp_at l.
Proof.
  intros db.
  destruct (X21_listings_show_all_rows (fun _ => "") "" "db" db None 1
              "2025-01-04T09:00:00" (reachable_run _))
    as (H1 & l & l' & H2 & _ & _ & H3).
  - unfold INT64_MIN, INT64_MAX. lia.
  - split; [exact H1|]. split; [reflexivity|].
    exists l. split; [exact H2|exact H3].
Defined.
